(** * UTBoost starter: localization heuristics, patch selection, aggregation

    A shallow embedding of [codebase_analyzer.py], of the workflow of
    [context_script.py], of the selection of [eval_harness.py], of
    [process_results.py], of [populate_test_cases.py] and of
    [process_prediction] of [scrape_top_n.py], followed by the
    properties established about them.  Files, the console, the GitHub
    client and the chat client are parameters of the functions that use
    them.

    Text.  A Python [str] is a [list ascii]; a character is a code point
    below 256, and the character classes used by [re] and [str.strip]
    ([\s], [\w]) and by [str.splitlines] follow CPython's Unicode tables
    on that range.  [print] calls write to standard output only and are
    left out.  Exceptions are values of [exn]; a computation that may
    raise has type [result A]. *)

From Stdlib Require Import ZArith List Ascii String Bool Lia Sorting.Permutation
  Sorting.Sorted
  Numbers.DecimalString PrimFloat Uint63.
From stdpp Require Import base option list gmap strings.

Local Open Scope Z_scope.
Local Open Scope list_scope.

(** ** Python values shared by the modules *)

Abbreviation str := (list ascii).

(** A string literal of the source. *)
Definition lit (s : string) : str := list_ascii_of_string s.

Inductive exn :=
| NameError (name : string)
| ValueError (msg : string)
| TypeError (msg : string)
| AttributeError (msg : string)
| UnicodeDecodeError
| GithubException (msg : str)
| Exception (msg : str).

Definition result (A : Type) : Type := exn + A.

Definition raise {A} (e : exn) : result A := inl e.
Definition ret {A} (a : A) : result A := inr a.
Definition bind {A B} (m : result A) (f : A -> result B) : result B :=
  match m with
  | inl e => inl e
  | inr a => f a
  end.

Notation "'do' x <- m ; k" := (bind m (fun x => k))
  (at level 10, x name, m at level 100, k at level 200).

(** [try: body except Exception: handler]. *)
Definition try_except {A} (body : result A) (handler : exn -> A) : A :=
  match body with
  | inl e => handler e
  | inr a => a
  end.

(** ** Builtins of [str] *)

Module Py.

Definition LF : ascii := ascii_of_N 10.
Definition CR : ascii := ascii_of_N 13.

(** [str.isspace] on one character, which is also [\s] of [re]:
    U+0009..U+000D, U+001C..U+0020, U+0085, U+00A0. *)
Definition isspace (c : ascii) : bool :=
  let n := N_of_ascii c in
  ((9 <=? n) && (n <=? 13) || (28 <=? n) && (n <=? 32)
   || (n =? 133) || (n =? 160))%N.

(** [\w] of [re] on a [str] pattern: alphanumeric or underscore. *)
Definition isword (c : ascii) : bool :=
  let n := N_of_ascii c in
  ((48 <=? n) && (n <=? 57) || (65 <=? n) && (n <=? 90)
   || (97 <=? n) && (n <=? 122) || (n =? 95)
   || (n =? 170) || (n =? 178) || (n =? 179) || (n =? 181)
   || (n =? 185) || (n =? 186) || (188 <=? n) && (n <=? 190)
   || (192 <=? n) && (n <=? 214) || (216 <=? n) && (n <=? 246)
   || (248 <=? n) && (n <=? 255))%N.

(** Line boundaries of [str.splitlines]. *)
Definition islinebreak (c : ascii) : bool :=
  let n := N_of_ascii c in
  ((10 <=? n) && (n <=? 13) || (28 <=? n) && (n <=? 30) || (n =? 133))%N.

(** [s.split(sep)] for a one-character separator: always at least one
    field, empty fields kept. *)
Fixpoint split (sep : ascii) (s : str) : list str :=
  match s with
  | [] => [[]]
  | c :: s' =>
      if Ascii.eqb c sep then [] :: split sep s'
      else match split sep s' with
           | [] => [[c]]
           | l :: ls => (c :: l) :: ls
           end
  end.

(** [sep.join(parts)]. *)
Fixpoint join (sep : str) (parts : list str) : str :=
  match parts with
  | [] => []
  | [p] => p
  | p :: ps => p ++ sep ++ join sep ps
  end.

Fixpoint lstrip (s : str) : str :=
  match s with
  | c :: s' => if isspace c then lstrip s' else s
  | [] => []
  end.

Definition rstrip (s : str) : str := rev (lstrip (rev s)).

(** [s.strip()]. *)
Definition strip (s : str) : str := rstrip (lstrip s).

(** [s.splitlines()]: the flag records that the previous character was
    a carriage return, so that a following line feed ends the same line. *)
Fixpoint splitlines_from (prev_cr : bool) (s : str) : list str :=
  match s with
  | [] => []
  | c :: s' =>
      if prev_cr && Ascii.eqb c LF then splitlines_from false s'
      else if islinebreak c then [] :: splitlines_from (Ascii.eqb c CR) s'
      else match splitlines_from false s' with
           | [] => [[c]]
           | l :: ls => (c :: l) :: ls
           end
  end.

Definition splitlines (s : str) : list str := splitlines_from false s.

(** [s.rfind(c)]: index of the last occurrence, or -1. *)
Fixpoint rfind_from (c : ascii) (s : str) (i : Z) (last : Z) : Z :=
  match s with
  | [] => last
  | a :: s' => rfind_from c s' (i + 1) (if Ascii.eqb a c then i else last)
  end.

Definition rfind (c : ascii) (s : str) : Z := rfind_from c s 0 (-1).

(** [s[:n]] for an integer [n >= 0]. *)
Definition slice_to (n : Z) (s : str) : str := firstn (Z.to_nat n) s.

(** [s.endswith(suffix)]. *)
Fixpoint startswith (p s : str) : bool :=
  match p, s with
  | [], _ => true
  | a :: p', c :: s' => Ascii.eqb a c && startswith p' s'
  | _ :: _, [] => false
  end.

Definition endswith (suffix s : str) : bool := startswith (rev suffix) (rev s).

(** [str(n)] for an integer. *)
Definition str_of_int (n : Z) : str :=
  list_ascii_of_string (NilEmpty.string_of_int (Z.to_int n)).

(** [s.strip(chars)]: leading and trailing characters of the set [chars]
    removed. *)
Fixpoint lstrip_chars (chars : str) (s : str) : str :=
  match s with
  | c :: s' => if existsb (Ascii.eqb c) chars then lstrip_chars chars s' else s
  | [] => []
  end.

Definition strip_chars (chars : str) (s : str) : str :=
  rev (lstrip_chars chars (rev (lstrip_chars chars s))).

(** [os.path.join(a, b)] on POSIX: an absolute [b] replaces [a]. *)
Definition path_join (a b : str) : str :=
  if startswith (lit "/") b then b
  else if bool_decide (a = []) || endswith (lit "/") a then a ++ b
  else a ++ lit "/" ++ b.

End Py.

(** ** Backtracking matcher of [re]

    A pattern is a chain of combinators in continuation style: each takes
    the text still to be matched and the rest of the pattern as a
    continuation, and returns the first success in the engine's priority
    order.  A greedy quantifier tries the longest repetition first, a lazy
    one the shortest.  All quantifiers of the source range over a
    single-character class. *)

Module Re.

Section Combinators.
Context {A : Type}.
Implicit Types (k : str -> option A) (cls : ascii -> bool).

(** A literal. *)
Fixpoint lit_ (p : str) (s : str) k : option A :=
  match p with
  | [] => k s
  | a :: p' =>
      match s with
      | c :: s' => if Ascii.eqb a c then lit_ p' s' k else None
      | [] => None
      end
  end.

(** [cls*], greedy. *)
Fixpoint star cls (s : str) k : option A :=
  match s with
  | c :: s' =>
      if cls c then
        match star cls s' k with
        | Some r => Some r
        | None => k s
        end
      else k s
  | [] => k []
  end.

(** [cls+], greedy. *)
Definition plus cls (s : str) k : option A :=
  match s with
  | c :: s' => if cls c then star cls s' k else None
  | [] => None
  end.

(** [cls*?], lazy. *)
Fixpoint star_lazy cls (s : str) k : option A :=
  match k s with
  | Some r => Some r
  | None =>
      match s with
      | c :: s' => if cls c then star_lazy cls s' k else None
      | [] => None
      end
  end.
End Combinators.

(** [.] without DOTALL: any character but a line feed. *)
Definition dot (c : ascii) : bool := negb (Ascii.eqb c Py.LF).

(** [[^\s]]. *)
Definition notspace (c : ascii) : bool := negb (Py.isspace c).

(** The text consumed from [s] when [rest] is what remains. *)
Definition consumed (s rest : str) : str :=
  firstn (length s - length rest)%nat s.

(** [re.search]: the first start position, left to right, at which the
    pattern matches. *)
Fixpoint search {A} (pat : str -> option A) (s : str) : option A :=
  match pat s with
  | Some r => Some r
  | None =>
      match s with
      | [] => None
      | _ :: s' => search pat s'
      end
  end.

(** [p|q]: the first alternative that lets the rest of the pattern match. *)
Definition alt {A} (p q : (str -> option A) -> option A)
    (k : str -> option A) : option A :=
  match p k with
  | Some r => Some r
  | None => q k
  end.

(** [$] without MULTILINE: the end of the text, or just before a line
    feed that ends it. *)
Definition eos {A} (s : str) (k : str -> option A) : option A :=
  if bool_decide (s = []) || bool_decide (s = [Py.LF]) then k s else None.

(** [.] with DOTALL. *)
Definition any (c : ascii) : bool := true.

End Re.

(** ** The content-hosting collaborator

    [repo.get_contents(path, ref=...)] answers with one content file, with
    the listing of a directory, or raises.  [decoded_utf8] is the outcome
    of [content.decoded_content.decode('utf-8')]. *)

Inductive pyval :=
| VStr (s : str)
| VInt (n : Z)
| VNone
| VObject (what : string).

Record ContentFile := {
  cf_type : str;
  cf_name : str;
  cf_path : str;
  decoded_utf8 : result str
}.

Inductive contents :=
| OneFile (c : ContentFile)
| Listing (cs : list ContentFile).

Record Repository := {
  get_contents : str -> pyval -> result contents
}.

(** Name resolution: the frames visible from a function body, innermost
    first.  A name bound in none of them raises [NameError]. *)
Definition frame := list (string * pyval).

Fixpoint load_name (name : string) (frames : frame) : result pyval :=
  match frames with
  | [] => raise (NameError name)
  | (x, v) :: rest => if String.eqb x name then ret v else load_name name rest
  end.

(** ** codebase_analyzer.py *)

(** The names bound at module level by the imports and the class
    statement. *)
Definition module_globals : frame :=
  map (fun x => (x, VObject "module-level binding"))
    ["os"; "Dict"; "List"; "re"; "Path"; "Github"; "Repository";
     "ContentFile"; "CodebaseAnalyzer"]%string.

(** [re.search(r'diff --git a/([^\s]+)', patch)], returning [group(1)]. *)
Definition diff_header_pattern (s : str) : option str :=
  Re.lit_ (lit "diff --git a/") s (fun s1 =>
  Re.plus Re.notspace s1 (fun rest =>
  Some (Re.consumed s1 rest))).

Definition search_diff_header (patch : str) : option str :=
  Re.search diff_header_pattern patch.

(** [derive_repo_info]: a mapping from field names to text in, a mapping
    out.  [not model_info.get("model_patch")] holds for a missing key and
    for the empty text. *)
Definition derive_repo_info (model_info : gmap string str)
  : result (gmap string str) :=
  match model_info !! "model_patch"%string with
  | None | Some [] => raise (ValueError "model_patch is required in model_info")
  | Some patch =>
      match search_diff_header patch with
      | None => raise (ValueError "Could not extract file path from patch")
      | Some file_path =>
          let path_parts := Py.split "/" file_path in
          let repo_name := hd [] path_parts in
          ret (<["repo_owner"%string := repo_name]>
               (<["repo_name"%string := repo_name]>
                (<["file_path"%string := file_path]> ∅)))
      end
  end.

(** The three patterns of the code-compression loop.  Each capture group
    spans the whole pattern, so [group(1)] is the text consumed. *)

(** [re.match(r'^(class\s+\w+.*?:)', line)], returning [group(1)]. *)
Definition header_match (keyword : str) (line : str) : option str :=
  Re.lit_ keyword line (fun s1 =>
  Re.plus Py.isspace s1 (fun s2 =>
  Re.plus Py.isword s2 (fun s3 =>
  Re.star_lazy Re.dot s3 (fun s4 =>
  Re.lit_ (lit ":") s4 (fun rest =>
  Some (Re.consumed line rest)))))).

Definition class_match : str -> option str := header_match (lit "class").

(** [re.match(r'^(def\s+\w+.*?:)', line)], returning [group(1)]. *)
Definition func_match : str -> option str := header_match (lit "def").

(** [re.match(r'^@\w+', line)]: only its truth value is used. *)
Definition decorator_match (line : str) : bool :=
  bool_decide (is_Some
    (Re.lit_ (lit "@") line (fun s1 =>
     Re.plus Py.isword s1 (fun rest => Some rest)))).

(** The code-compression step of [function_class_localization], lines
    106 to 130: the state of its per-line loop. *)
Record outline_state := {
  compressed : list str;
  in_class : bool;
  in_function : bool
}.

Definition outline_init : outline_state :=
  {| compressed := []; in_class := false; in_function := false |}.

(** One iteration of [for line in file_content.split('\n')]. *)
Definition outline_step (st : outline_state) (line : str) : outline_state :=
  if decorator_match line then
    {| compressed := compressed st ++ [Py.strip line];
       in_class := in_class st; in_function := in_function st |}
  else match class_match line with
  | Some header =>
    {| compressed := compressed st ++ [header];
       in_class := true; in_function := in_function st |}
  | None =>
  match func_match line with
  | Some header =>
    {| compressed := compressed st ++ [header];
       in_class := in_class st; in_function := true |}
  | None =>
  if in_class st && bool_decide (Py.strip line = []) then
    {| compressed := compressed st;
       in_class := false; in_function := in_function st |}
  else if in_function st && bool_decide (Py.strip line = []) then
    {| compressed := compressed st;
       in_class := in_class st; in_function := false |}
  else st
  end end.

Definition outline_loop (file_content : str) : outline_state :=
  fold_left outline_step (Py.split Py.LF file_content) outline_init.

(** The lines appended to [compressed] for one file. *)
Definition outline_lines (file_content : str) : list str :=
  compressed (outline_loop file_content).

(** The value stored in [compressed_files[file_path]]. *)
Definition compress (file_content : str) : str :=
  Py.join [Py.LF] (outline_lines file_content).

(** [get_code_with_lines] of [line_level_localization];
    [base_commit_sha] is a parameter of the enclosing function. *)
Definition number_line (i : nat) (line : str) : str :=
  Py.str_of_int (Z.of_nat i + 1) ++ lit ": " ++ line.

Definition get_code_with_lines (repo : Repository) (base_commit_sha : str)
    (file_path : str) : str :=
  try_except
    (do content <- get_contents repo file_path (VStr base_commit_sha);
     match content with
     | Listing _ => raise (AttributeError "'list' object has no attribute 'type'")
     | OneFile c =>
         if negb (bool_decide (cf_type c = lit "file")) then ret []
         else
           do file_content <- decoded_utf8 c;
           ret (Py.join [] (imap number_line (Py.split Py.LF file_content)))
     end)
    (fun _ => []).

(** [sorted(xs, key=...)] on keys that compare without error: a stable
    insertion of each element behind the elements it is not smaller than. *)
Fixpoint str_ltb (a b : str) : bool :=
  match a, b with
  | [], [] => false
  | [], _ :: _ => true
  | _ :: _, [] => false
  | x :: a', y :: b' =>
      if (N_of_ascii x <? N_of_ascii y)%N then true
      else if (N_of_ascii y <? N_of_ascii x)%N then false
      else str_ltb a' b'
  end.

Fixpoint insert_by_name (c : ContentFile) (sorted : list ContentFile)
  : list ContentFile :=
  match sorted with
  | [] => [c]
  | d :: rest =>
      if str_ltb (cf_name c) (cf_name d) then c :: d :: rest
      else d :: insert_by_name c rest
  end.

Definition sorted_by_name (cs : list ContentFile) : list ContentFile :=
  fold_left (fun acc c => insert_by_name c acc) cs [].

(** [str(e)] as far as the handlers use it. *)
Definition exn_message (e : exn) : str :=
  match e with
  | NameError x => lit "name '" ++ lit x ++ lit "' is not defined"
  | ValueError m | TypeError m | AttributeError m => lit m
  | UnicodeDecodeError => lit "'utf-8' codec can't decode"
  | GithubException m | Exception m => m
  end.

(** [build_tree], the closure nested in [file_level_localization].
    [enclosing] holds the frames of the enclosing function and of the
    module; the arguments of the call are evaluated before the call, the
    name [base_commit_sha] among them.  The recursion follows the
    collaborator's answers, hence the fuel.  The box-drawing glyphs lie
    outside the modelled character range and stand as their UTF-8 bytes. *)
Fixpoint build_tree (fuel : nat) (enclosing : frame) (repo : Repository)
    (path : str) (indent : nat) : option str :=
  match fuel with
  | O => None
  | S fuel' =>
      let locals : frame :=
        [("repo", VObject "Repository"); ("path", VStr path);
         ("indent", VInt (Z.of_nat indent)); ("tree_str", VStr [])]%string in
      let listing :=
        do ref <- load_name "base_commit_sha" (locals ++ enclosing);
        do contents <- get_contents repo path ref;
        match contents with
        | Listing cs => ret (sorted_by_name cs)
        | OneFile _ => raise (TypeError "'ContentFile' object is not iterable")
        end in
      match listing with
      | inl _ => Some []
      | inr entries =>
          fold_left
            (fun acc content =>
               match acc with
               | None => None
               | Some tree_str =>
                   let prefix := concat (replicate indent (lit "│   ")) in
                   if bool_decide (cf_type content = lit "dir") then
                     match build_tree fuel' enclosing repo (cf_path content)
                             (S indent) with
                     | None => None
                     | Some sub =>
                         Some (tree_str ++ prefix ++ lit "├── "
                               ++ cf_name content ++ lit "/" ++ [Py.LF] ++ sub)
                     end
                   else
                     Some (tree_str ++ prefix ++ lit "├── "
                           ++ cf_name content ++ [Py.LF])
               end)
            entries (Some [])
      end
  end.

Record Github := {
  get_repo : str -> result Repository
}.

(** The f-string of stage 1. *)
Definition file_level_prompt (n : Z)
    (codebase_tree issue_description test_patch : str) : str :=
  lit "Analyze this software repository and identify the "
  ++ Py.str_of_int n ++ lit " files most likely 
    to require test case additions based on the issue description and existing test patch.

    Repository Structure:
    " ++ codebase_tree ++ lit "

    Issue Description:
    " ++ issue_description ++ lit "

    Existing Test Patch:
    " ++ test_patch ++ lit "

    Output Requirements:
    1. List " ++ Py.str_of_int n ++ lit " full file paths from the repository structure
    2. Order by relevance to the issue
    3. Format as bullet points with explanations
    4. Focus on test files and code under test

    Example Response:
    - sklearn/svm/tests/test_svm.py (Contains SVM test cases similar to the patch)
    - sklearn/svm/base.py (Implements core SVM functionality referenced in issue)
    ".

(** The frame of [file_level_localization] once [repo] is bound. *)
Definition file_level_frame (repo_owner repo_name issue_description
    test_patch : str) (github_token : option str) (n : Z) : frame :=
  [("repo_owner", VStr repo_owner); ("repo_name", VStr repo_name);
   ("issue_description", VStr issue_description);
   ("test_patch", VStr test_patch);
   ("github_token", from_option VStr VNone github_token);
   ("n", VInt n); ("g", VObject "Github"); ("repo", VObject "Repository");
   ("build_tree", VObject "function")]%string.

(** [file_level_localization]; [g] is the client built from
    [github_token].  [None] only when the tree walk runs out of fuel. *)
Definition file_level_localization (fuel : nat) (g : Github)
    (repo_owner repo_name issue_description test_patch : str)
    (github_token : option str) (n : Z) : option (result str) :=
  match get_repo g (repo_owner ++ lit "/" ++ repo_name) with
  | inl e =>
      Some (raise (Exception
        (lit "Error accessing GitHub repository: " ++ exn_message e)))
  | inr repo =>
      let enclosing :=
        file_level_frame repo_owner repo_name issue_description test_patch
          github_token n ++ module_globals in
      match build_tree fuel enclosing repo [] 0 with
      | None => None
      | Some codebase_tree =>
          Some (ret (file_level_prompt n codebase_tree issue_description
                       test_patch))
      end
  end.

(** ** context_script.py *)

Definition max_tokens : Z := 120000.

(** The prompt [get_llm_response] goes on to send: lines 72 to 92. *)
Definition truncation_step (prompt : str) : str :=
  let estimated_tokens := Z.of_nat (length prompt) / 4 in
  if estimated_tokens >? max_tokens then
    let truncated_prompt := Py.slice_to (max_tokens * 4) prompt in
    let last_period := Py.rfind "." truncated_prompt in
    if negb (last_period =? -1) then Py.slice_to (last_period + 1) truncated_prompt
    else truncated_prompt
  else prompt.

(** The chat-completion collaborator. *)
Record OpenAI := {
  chat_completions_create : string -> str -> result str
}.

Definition get_llm_response (client : option OpenAI) (prompt : str)
    (model : string) : result str :=
  match client with
  | None => raise (ValueError "OpenAI API key not provided")
  | Some c => chat_completions_create c model (truncation_step prompt)
  end.

(** ** eval_harness.py *)

(** One evaluation result: [{original: {passed, total}, patch}]. *)
Record EvaluationResult := {
  patch : str;
  original_passed : Z;
  original_total : Z
}.

#[global] Instance EvaluationResult_eq_dec : EqDecision EvaluationResult.
Proof. solve_decision. Defined.

(** [len(res['patch'].splitlines())]. *)
Definition patch_size (res : EvaluationResult) : Z :=
  Z.of_nat (length (Py.splitlines (patch res))).

(** [a < b] on the candidate tuples [(int, dict)]: the first position at
    which the tuples differ by [==] decides; two mappings that differ are
    then ordered by [<], which mappings do not support. *)
Definition candidate_lt (a b : Z * EvaluationResult) : result bool :=
  if negb (a.1 =? b.1) then ret (a.1 <? b.1)
  else if bool_decide (a.2 = b.2) then ret false
  else raise (TypeError "'<' not supported between instances of 'dict' and 'dict'").

(** [sorted(candidates)].  The builtin is a stable comparison sort on
    [<]; it is rendered as the stable insertion of each element in turn,
    compared as [new < old] with the elements already placed, smallest
    first.  The first comparison that raises ends the sort. *)
Fixpoint insert_candidate (x : Z * EvaluationResult)
    (sorted : list (Z * EvaluationResult))
  : result (list (Z * EvaluationResult)) :=
  match sorted with
  | [] => ret [x]
  | y :: rest =>
      do smaller <- candidate_lt x y;
      if (smaller : bool) then ret (x :: y :: rest)
      else do rest' <- insert_candidate x rest; ret (y :: rest')
  end.

Definition sorted_candidates (candidates : list (Z * EvaluationResult))
  : result (list (Z * EvaluationResult)) :=
  fold_left (fun acc x => do done <- acc; insert_candidate x done)
    candidates (ret []).

Definition select_best_solution (results : list EvaluationResult)
  : result (option EvaluationResult) :=
  let candidates := map (fun res => (- patch_size res, res)) results in
  match candidates with
  | [] => ret None
  | _ :: _ =>
      do ordered <- sorted_candidates candidates;
      ret (snd <$> head ordered)
  end.

(** ** process_results.py *)

(** A result file of the scanned directory: its name and the two fields
    read from its JSON object, each possibly missing. *)
Record result_file := {
  filename : str;
  total_instances : option Z;
  completed_ids : option (list str)
}.

(** What [calculate_success_rate] returns: the integer [0] of the else
    branch or a float. *)
Inductive rate :=
| RInt (n : Z)
| RFloat (x : float).

(** [float(n)] for an integer below 2^63 in absolute value. *)
Definition float_of_int (n : Z) : float :=
  if n <? 0 then PrimFloat.opp (PrimFloat.of_uint63 (Uint63.of_Z (- n)))
  else PrimFloat.of_uint63 (Uint63.of_Z n).

(** [a / b] on integers, for a divisor other than zero.  Operands below
    2^53 in absolute value convert to floats exactly and the quotient is
    the float division of the two; larger operands are outside the
    model, whose answer is then [None]. *)
Definition true_div (a b : Z) : option float :=
  if (Z.abs a <? 2 ^ 53) && (Z.abs b <? 2 ^ 53) then
    Some (PrimFloat.div (float_of_int a) (float_of_int b))
  else None.

(** The two accumulators after the loop over [os.listdir]. *)
Definition scan_step (acc : Z * Z) (f : result_file) : Z * Z :=
  if Py.endswith (lit ".json") (filename f) then
    let file_total_instances := default 0 (total_instances f) in
    let file_completed_instances :=
      Z.of_nat (length (default [] (completed_ids f))) in
    (acc.1 + file_total_instances, acc.2 + file_completed_instances)
  else acc.

Definition calculate_success_rate (test_results_dir : list result_file)
  : option rate :=
  let '(total_instances, total_completed) :=
    fold_left scan_step test_results_dir (0, 0) in
  if total_instances >? 0 then
    quotient ← true_div total_completed total_instances;
    Some (RFloat (PrimFloat.mul quotient (float_of_int 100)))
  else Some (RInt 0).

(** ** codebase_analyzer.py: stages 2 and 3 *)

(** [d[key] = value] on a dictionary, which keeps its keys in insertion
    order: a key already present keeps its place. *)
Fixpoint odict_set (key value : str) (d : list (str * str)) : list (str * str) :=
  match d with
  | [] => [(key, value)]
  | (k, v) :: d' =>
      if bool_decide (k = key) then (key, value) :: d'
      else (k, v) :: odict_set key value d'
  end.

(** [f"\n=== {key} ===\n{text}\n"], appended for each item of the
    dictionary. *)
Definition prompt_section (item : str * str) : str :=
  [Py.LF] ++ lit "=== " ++ item.1 ++ lit " ===" ++ [Py.LF] ++ item.2 ++ [Py.LF].

(** The loop over [top_files] of [function_class_localization]: one
    iteration, with its [continue] and its handler. *)
Definition compress_file (repo : Repository) (base_commit_sha : str)
    (compressed_files : list (str * str)) (file_path : str)
  : list (str * str) :=
  try_except
    (do content <- get_contents repo file_path (VStr base_commit_sha);
     match content with
     | Listing _ => raise (AttributeError "'list' object has no attribute 'type'")
     | OneFile c =>
         if negb (bool_decide (cf_type c = lit "file")) then ret compressed_files
         else
           do file_content <- decoded_utf8 c;
           ret (odict_set file_path (compress file_content) compressed_files)
     end)
    (fun _ => compressed_files).

Definition function_class_prompt (n : Z) (compressed_files : list (str * str))
    (issue_desc test_patch : str) : str :=
  lit "Analyze these code structures to identify the top "
  ++ Py.str_of_int n ++ lit " functions/classes
    needing augmented test cases for issue resolution.

    Repository Files:
    " ++ concat (map prompt_section compressed_files) ++ lit "
    Issue Description:
    " ++ issue_desc ++ lit "

    Original Test Patch:
    " ++ test_patch ++ lit "

    Output Requirements:
    1. List " ++ Py.str_of_int n ++ lit " fully qualified function/class names
    2. Order by relevance to the issue
    3. Format as bullet points with explanations
    4. Include parent classes/modules where applicable

    Example Response:
    - sklearn.svm.tests.test_svm.test_sparse_fit_sv_empty (Core SVM test function missing edge cases)
    - sklearn.svm.base._sparse_fit (Implementation function called by test)
    ".

(** [function_class_localization]; [g] is the client built from
    [github_token]. *)
Definition function_class_localization (g : Github)
    (repo_owner repo_name : str) (top_files : list str)
    (issue_desc test_patch base_commit_sha : str)
    (github_token : option str) (n : Z) : result str :=
  match get_repo g (repo_owner ++ lit "/" ++ repo_name) with
  | inl e =>
      raise (Exception
        (lit "Error accessing GitHub repository: " ++ exn_message e))
  | inr repo =>
      let compressed_files :=
        fold_left (compress_file repo base_commit_sha) top_files [] in
      ret (function_class_prompt n compressed_files issue_desc test_patch)
  end.

(** [parse_function_spec], nested in [line_level_localization]. *)
Definition parse_function_spec (func_spec : str) : result (str * str) :=
  let parts := Py.split "." func_spec in
  if (length parts <? 2)%nat then
    raise (ValueError
      ("Invalid function specification: " +:+ string_of_list_ascii func_spec))
  else
    let file_path := Py.join (lit "/") (removelast parts) ++ lit ".py" in
    let func_name := List.last parts [] in
    ret (file_path, func_name).

(** The loop over [target_functions] of [line_level_localization]: one
    iteration; [if code:] keeps the excerpts that are not empty. *)
Definition add_code_context (repo : Repository) (base_commit_sha : str)
    (code_context : list (str * str)) (func_spec : str)
  : list (str * str) :=
  try_except
    (do parsed <- parse_function_spec func_spec;
     let file_path := parsed.1 in
     let code := get_code_with_lines repo base_commit_sha file_path in
     ret (if negb (bool_decide (code = []))
          then odict_set func_spec code code_context
          else code_context))
    (fun _ => code_context).

Definition line_level_prompt (code_context : list (str * str))
    (issue_desc test_patch : str) (context_window : Z) : str :=
  lit "Analyze these code segments to identify exact line ranges for test insertion:

    Issue Description:
    " ++ issue_desc ++ lit "

    Original Test Patch:
    " ++ test_patch ++ lit "

    Code Contexts:
    " ++ concat (map prompt_section code_context) ++ lit "
    Output Requirements:
    1. Specify line ranges as [start_line-end_line]
    2. Prioritize areas with:
    - Conditional logic
    - Error handling
    - Data validation
    3. Include " ++ Py.str_of_int context_window ++ lit " lines of surrounding context
    4. Format response as:
    <function_spec>: <line_range>

    Example Response:
    sklearn.svm.tests.test_svm.test_sparse_fit_sv_empty: 693-740
    ".

(** [line_level_localization]. *)
Definition line_level_localization (g : Github)
    (repo_owner repo_name : str) (target_functions : list str)
    (issue_desc test_patch base_commit_sha : str)
    (github_token : option str) (context_window : Z) : result str :=
  match get_repo g (repo_owner ++ lit "/" ++ repo_name) with
  | inl e =>
      raise (Exception
        (lit "Error accessing GitHub repository: " ++ exn_message e))
  | inr repo =>
      let code_context :=
        fold_left (add_code_context repo base_commit_sha) target_functions [] in
      ret (line_level_prompt code_context issue_desc test_patch context_window)
  end.

(** ** context_script.py: loading a task and the workflow *)

(** A parsed task file: a JSON array of task records or one record. *)
Inductive tasks_json :=
| TaskList (tasks : list (gmap string str))
| TaskObject (task : gmap string str).

(** [load_task]; [read_json] is [json.load] on the file of that path. *)
Definition load_task (read_json : str -> result tasks_json) (task_file : str)
  : result (gmap string str) :=
  let task_file :=
    if negb (Py.endswith (lit ".json") task_file) then
      lit "UTBoost_experiment/tasks/" ++ task_file
      ++ lit "/passed_agent_passes.json"
    else task_file in
  do tasks <- read_json task_file;
  match tasks with
  | TaskList [] => raise (ValueError "No tasks found in the file")
  | TaskList (task :: _) => ret task
  | TaskObject task => ret task
  end.

(** [extract_top_files]. *)
Definition extract_top_files (llm_response : str) : list str :=
  fold_left
    (fun files line =>
       if Py.startswith (lit "- ") line then
         let file_path :=
           Py.strip (Py.strip_chars (lit "- ") (hd [] (Py.split "(" line))) in
         files ++ [file_path]
       else files)
    (Py.split Py.LF llm_response) [].

(** [re.search(r'#\s*(.*?)(?:\n|$)', patch)], returning [group(1)]. *)
Definition comment_pattern (s : str) : option str :=
  Re.lit_ (lit "#") s (fun s1 =>
  Re.star Py.isspace s1 (fun s2 =>
  Re.star_lazy Re.dot s2 (fun s3 =>
  Re.alt (Re.lit_ [Py.LF] s3) (Re.eos s3) (fun _ =>
  Some (Re.consumed s2 s3))))).

(** The issue description [process_task] works with: lines 136 to 148. *)
Definition issue_description_of (task_data : gmap string str) : str :=
  let issue_description := default [] (task_data !! "issue_description"%string) in
  if bool_decide (issue_description = [])
     && bool_decide (is_Some (task_data !! "model_patch"%string)) then
    let patch := default [] (task_data !! "model_patch"%string) in
    match Re.search comment_pattern patch with
    | Some comment => comment
    | None => Py.join [Py.LF] (take 5 (Py.split Py.LF patch))
    end
  else issue_description.

(** Binding the keyword arguments of a call to the parameters of the
    callee.  A parameter is a name with its default, if it has one. *)
Definition signature := list (string * option pyval).

Definition quoted (x : string) : string := "'" +:+ x +:+ "'".

Fixpoint comma_separated (names : list string) : string :=
  match names with
  | [] => ""
  | [x] => "and " +:+ quoted x
  | x :: rest => quoted x +:+ ", " +:+ comma_separated rest
  end.

(** The names as the interpreter lists them: ['a'], ['a' and 'b'],
    ['a', 'b', and 'c']. *)
Definition listed (names : list string) : string :=
  match names with
  | [] => ""
  | [x] => quoted x
  | [x; y] => quoted x +:+ " and " +:+ quoted y
  | _ => comma_separated names
  end.

Definition lookup_keyword (name : string) (kwargs : frame) : option pyval :=
  snd <$> List.find (fun kv => String.eqb kv.1 name) kwargs.

Definition bind_keywords (function : string) (sig : signature) (kwargs : frame)
  : result frame :=
  match List.find (fun kv => negb (existsb (fun p => String.eqb p.1 kv.1) sig)) kwargs with
  | Some kv =>
      raise (TypeError
        (function +:+ "() got an unexpected keyword argument " +:+ quoted kv.1))
  | None =>
      let missing :=
        map fst
          (List.filter
             (fun p => match lookup_keyword p.1 kwargs, p.2 with
                       | None, None => true
                       | _, _ => false
                       end) sig) in
      match missing with
      | [] =>
          ret (map (fun p => (p.1, default (default VNone p.2)
                                     (lookup_keyword p.1 kwargs))) sig)
      | _ :: _ =>
          raise (TypeError
            (function +:+ "() missing "
             +:+ NilEmpty.string_of_uint (Nat.to_uint (length missing))
             +:+ " required positional argument"
             +:+ (if (length missing =? 1)%nat then "" else "s")
             +:+ ": " +:+ listed missing))
      end
  end.

(** [def function_class_localization(repo_owner, repo_name, top_files,
    issue_desc, test_patch, base_commit_sha, github_token=None, n=3)]. *)
Definition function_class_localization_signature : signature :=
  [("repo_owner", None); ("repo_name", None); ("top_files", None);
   ("issue_desc", None); ("test_patch", None); ("base_commit_sha", None);
   ("github_token", Some VNone); ("n", Some (VInt 3))]%string.

(** [process_task] up to the call of stage 2 at line 164.  [rest] stands
    for all that follows the binding of that call's arguments: the body
    of the callee and the remainder of [process_task]. *)
Definition process_task {A} (rest : list str -> frame -> result A)
    (fuel : nat) (g : Github) (client : option OpenAI)
    (github_token : option str) (task_data : gmap string str)
  : option (result A) :=
  match derive_repo_info task_data with
  | inl e => Some (raise e)
  | inr repo_info =>
      let issue_description := issue_description_of task_data in
      let model_patch := default [] (task_data !! "model_patch"%string) in
      match
        file_level_localization fuel g
          (default [] (repo_info !! "repo_owner"%string))
          (default [] (repo_info !! "repo_name"%string))
          issue_description model_patch github_token 3
      with
      | None => None
      | Some file_prompt =>
          Some (do file_prompt <- file_prompt;
                do file_response <-
                  get_llm_response client file_prompt "gpt-4-turbo-preview";
                let top_files := extract_top_files file_response in
                do locals <-
                  bind_keywords "CodebaseAnalyzer.function_class_localization"
                    function_class_localization_signature
                    [("repo_owner", VStr (default [] (repo_info !! "repo_owner"%string)));
                     ("repo_name", VStr (default [] (repo_info !! "repo_name"%string)));
                     ("top_files", VObject "list");
                     ("issue_desc", VStr issue_description);
                     ("test_patch", VStr model_patch);
                     ("github_token", from_option VStr VNone github_token)]%string;
                rest top_files locals)
      end
  end.

(** ** populate_test_cases.py *)

(** [re.search(r'```python\n(.*?)```', test_case, re.DOTALL)], returning
    [group(1)]. *)
Definition python_block_pattern (s : str) : option str :=
  Re.lit_ (lit "```python" ++ [Py.LF]) s (fun s1 =>
  Re.star_lazy Re.any s1 (fun s2 =>
  Re.lit_ (lit "```") s2 (fun _ =>
  Some (Re.consumed s1 s2)))).

(** [pull_test_case]; [read_context] is [json.load] on the context file. *)
Definition pull_test_case (read_context : str -> result (gmap string str))
    (instance_id : str) : result str :=
  let context_file := lit "context_results/" ++ instance_id ++ lit ".json" in
  do data <- read_context context_file;
  let test_case := default [] (data !! "test_case"%string) in
  match Re.search python_block_pattern test_case with
  | Some code => ret (Py.strip code)
  | None => ret test_case
  end.

(** ** process_results.py: the original pass rate *)

(** One entry of a [passed_agent_passes.json] file. *)
Record agent_pass := {
  instance_id : str;
  model_patch : str;
  model_name_or_path : str
}.

#[global] Instance agent_pass_eq_dec : EqDecision agent_pass.
Proof. solve_decision. Defined.

(** The patches of one task added to the set; [read_passes] answers
    [None] for a path that does not exist. *)
Definition add_task_patches (read_passes : str -> option (list agent_pass))
    (tasks_dir : str) (unique_patches : gset str) (task : str) : gset str :=
  let passed_patches_file :=
    Py.path_join (Py.path_join tasks_dir task) (lit "passed_agent_passes.json") in
  match read_passes passed_patches_file with
  | Some passed_patches =>
      fold_left (fun unique patch => unique ∪ {[ model_patch patch ]})
        passed_patches unique_patches
  | None => unique_patches
  end.

Definition calculate_original_pass_rate
    (read_passes : str -> option (list agent_pass))
    (tasks_dir : str) (task_list : list str) : option rate :=
  let total_tasks := Z.of_nat (length task_list) in
  let unique_patches :=
    fold_left (add_task_patches read_passes tasks_dir) task_list ∅ in
  let total_passed_patches := Z.of_nat (size unique_patches) in
  if total_tasks >? 0 then
    quotient ← true_div total_passed_patches (total_tasks * 20);
    Some (RFloat (PrimFloat.mul quotient (float_of_int 100)))
  else Some (RInt 0).

(** ** context_script.py: choosing a task at the console *)








(** ** scrape_top_n.py *)

(** The file system as [process_prediction] uses it, over a type [S] of
    file-system states: [os.path.exists], [os.makedirs(_, exist_ok=True)],
    [json.load] on the file opened for reading and [json.dump] on the
    file opened for writing.  A passes file holds a list of entries. *)
Record FileSystem (S : Type) := {
  path_exists : str -> S -> bool;
  makedirs : str -> S -> result S;
  load_passes : str -> S -> result (list agent_pass);
  dump_passes : str -> list agent_pass -> S -> result S
}.

Arguments path_exists {S}.
Arguments makedirs {S}.
Arguments load_passes {S}.
Arguments dump_passes {S}.

(** [process_prediction]: the answer and the file system it leaves.  The
    parameter [data] is not used by the body. *)
Definition process_prediction {S} (fs : FileSystem S) (data : gmap string str)
    (instance_id model_name model_patch : str) (resolved_tasks : gset str)
    (task_dir passes_file : str) (s : S) : result (bool * S) :=
  if bool_decide (instance_id ∈ resolved_tasks) then
    do s1 <- (if negb (path_exists fs task_dir s) then makedirs fs task_dir s
              else ret s);
    do passes <- (if path_exists fs passes_file s1
                  then load_passes fs passes_file s1
                  else ret []);
    let new_pass := Build_agent_pass instance_id model_patch model_name in
    if bool_decide (new_pass ∉ passes) then
      do s2 <- dump_passes fs passes_file (passes ++ [new_pass]) s1;
      ret (true, s2)
    else ret (false, s1)
  else ret (false, s).


(** ** Vocabulary of the statements *)

(** *** Runs of characters *)

(** The longest prefix of characters of a class, and what follows it. *)
Fixpoint take_while (cls : ascii -> bool) (s : str) : str :=
  match s with
  | c :: s' => if cls c then c :: take_while cls s' else []
  | [] => []
  end.

Fixpoint drop_while (cls : ascii -> bool) (s : str) : str :=
  match s with
  | c :: s' => if cls c then drop_while cls s' else s
  | [] => []
  end.

(** What follows the first colon of a text, when only characters other
    than a line feed come before it. *)
Fixpoint after_colon (s : str) : option str :=
  match s with
  | [] => None
  | c :: s' =>
      if Ascii.eqb c ":" then Some s'
      else if Ascii.eqb c Py.LF then None
      else after_colon s'
  end.

(** A character before the first colon of a header. *)
Definition plain (c : ascii) : Prop :=
  Ascii.eqb c ":" = false /\ Ascii.eqb c Py.LF = false.

(** *** Outlines *)

(** The flag-free reading of the compression step: keep decorator lines
    and the captures of class and function headers, drop the rest. *)
Definition outline_keep (line : str) : list str :=
  if decorator_match line then [Py.strip line]
  else match class_match line with
       | Some header => [header]
       | None =>
           match func_match line with
           | Some header => [header]
           | None => []
           end
       end.

Definition compress_flag_free (file_content : str) : str :=
  Py.join [Py.LF] (flat_map outline_keep (Py.split Py.LF file_content)).

(** The pattern of a header from its word on, and from the lazy [.*?]
    on, as continuations for the text of [line] that is left. *)
Definition header_tail (line : str) (s3 : str) : option str :=
  Re.star_lazy Re.dot s3 (fun s4 =>
  Re.lit_ (lit ":") s4 (fun rest => Some (Re.consumed line rest))).

Definition header_word_part (line : str) (s2 : str) : option str :=
  Re.plus Py.isword s2 (header_tail line).

(** A line of an outline: a decorator line, a class header or a function
    header. *)
Definition is_outline_line (l : str) : Prop :=
  decorator_match l = true \/ is_Some (class_match l) \/ is_Some (func_match l).

(** *** Diff headers *)

(** [patch] holds a header [diff --git a/<path>] at offset [i]: the
    literal, then the non-empty run [path] of non-blank characters, which
    ends at a blank or at the end of the text. *)
Definition diff_header_at (patch : str) (i : nat) (path : str) : Prop :=
  exists rest,
    drop i patch = lit "diff --git a/" ++ path ++ rest
    /\ path <> []
    /\ Forall (fun c => Py.isspace c = false) path
    /\ match rest with
       | [] => True
       | c :: _ => Py.isspace c = true
       end.

(** The part of a path before its first slash, the whole path when it
    has none. *)
Definition first_path_segment (path : str) : str :=
  take_while (fun c => negb (Ascii.eqb c "/")) path.

(** *** Result files *)

(** The files the scan reads, and the two sums taken over them. *)
Definition scanned (dir : list result_file) : list result_file :=
  filter (fun f => Py.endswith (lit ".json") (filename f) = true) dir.

Definition sum_total_instances (dir : list result_file) : Z :=
  foldr Z.add 0 (map (fun f => default 0 (total_instances f)) (scanned dir)).

Definition sum_completed (dir : list result_file) : Z :=
  foldr Z.add 0
    (map (fun f => Z.of_nat (length (default [] (completed_ids f))))
       (scanned dir)).

(** *** Candidates *)

(** Two candidate tuples that [<] cannot order: equal sizes, different
    results. *)
Definition conflict (a b : Z * EvaluationResult) : Prop :=
  a.1 = b.1 /\ a.2 <> b.2.

Definition conflict_free (l : list (Z * EvaluationResult)) : Prop :=
  forall a b, In a l -> In b l -> ~ conflict a b.

Definition key_le (a b : Z * EvaluationResult) : Prop := a.1 <= b.1.

(** Two results at different positions with the same patch line count. *)
Definition tied (results : list EvaluationResult) : Prop :=
  exists (i j : nat) ri rj,
    i <> j /\ results !! i = Some ri /\ results !! j = Some rj
    /\ patch_size ri = patch_size rj.

(** Two results with the same patch line count that differ as mappings. *)
Definition tied_unequal (results : list EvaluationResult) : Prop :=
  exists ri rj,
    In ri results /\ In rj results
    /\ patch_size ri = patch_size rj /\ ri <> rj.

(** ** Inputs used in the examples *)

(** A repository that serves one file with the given text at every path. *)
Definition single_file_repo (text : str) : Repository :=
  {| get_contents := fun _ _ =>
       ret (OneFile {| cf_type := lit "file"; cf_name := lit "f.py";
                       cf_path := lit "f.py"; decoded_utf8 := ret text |}) |}.

(** The text of two lines ["a"] and ["b"]. *)
Definition two_lines : str := lit "a" ++ [Py.LF] ++ lit "b".

(** The task record of the end-to-end scenario. *)
Definition scenario_patch : str :=
  lit "diff --git a/foo/bar.py b/foo/bar.py" ++ [Py.LF] ++ lit "...".

Definition scenario_task : gmap string str :=
  {[ "model_patch"%string := scenario_patch ]}.

(** Prompts of a given length made of one character. *)
Definition uniform_prompt (c : ascii) (n : Z) : str := replicate (Z.to_nat n) c.

(** A result file with [total] instances of which [done] are completed. *)
Definition run_file (name : string) (total : Z) (done : nat) : result_file :=
  {| filename := lit name; total_instances := Some total;
     completed_ids := Some (replicate done (lit "id")) |}.

(** Two result files: 7 of 10 and 5 of 5 completed. *)
Definition two_runs : list result_file :=
  [run_file "run1.json" 10 7; run_file "run2.json" 5 5].

(** An evaluation result whose patch has [n] lines. *)
Definition result_with_lines (n : nat) (passed total : Z) : EvaluationResult :=
  {| patch := concat (replicate n (lit "+x" ++ [Py.LF]));
     original_passed := passed; original_total := total |}.

(** Three results with 40, 12 and 25 patch lines. *)
Definition three_results : list EvaluationResult :=
  [result_with_lines 40 3 3; result_with_lines 12 3 3; result_with_lines 25 3 3].

(** The same result returned for two agents. *)
Definition twin_results : list EvaluationResult :=
  [result_with_lines 12 3 3; result_with_lines 12 3 3].

(** A repository with a directory [src] holding [a.py], and a file
    [README] beside it. *)
Definition entry (type name path : string) : ContentFile :=
  {| cf_type := lit type; cf_name := lit name; cf_path := lit path;
     decoded_utf8 := ret [] |}.

Definition small_repo : Repository :=
  {| get_contents := fun path _ =>
       if bool_decide (path = []) then
         ret (Listing [entry "dir" "src" "src"; entry "file" "README" "README"])
       else if bool_decide (path = lit "src") then
         ret (Listing [entry "file" "a.py" "src/a.py"])
       else raise (GithubException (lit "404")) |}.

(** A source file with an import, a decorated class with a method, and a
    function. *)
Definition sample_source : str :=
  Py.join [Py.LF]
    [lit "import os"; lit "@dataclass  "; lit "class A(B):  # c";
     lit "    def m(self):"; lit ""; lit "def f(x: int) -> int: return x"].

(** *** Function specifications *)

(** A dotted name with its dots turned into slashes. *)
Definition dot_to_slash (c : ascii) : ascii :=
  if Ascii.eqb c "." then "/"%char else c.

(** The dotted name of the example response of stage 2. *)
Definition example_spec : str := lit "sklearn.svm.base._sparse_fit".

(** *** Served files and dictionaries *)

(** The text the collaborator serves for a path at a revision: that of a
    content of type [file] that decodes. *)
Definition served_text (repo : Repository) (base_commit_sha path : str)
  : option str :=
  match get_contents repo path (VStr base_commit_sha) with
  | inr (OneFile c) =>
      if bool_decide (cf_type c = lit "file") then
        match decoded_utf8 c with
        | inr text => Some text
        | inl _ => None
        end
      else None
  | _ => None
  end.

(** A list without its repetitions, each element at its first mention. *)
Fixpoint first_mentions (l : list str) : list str :=
  match l with
  | [] => []
  | x :: l' => x :: filter (fun y => y <> x) (first_mentions l')
  end.

(** The outline stage 2 shows for a path, and the excerpt stage 3 shows
    for a function specification. *)
Definition outline_for (repo : Repository) (base_commit_sha path : str) : str :=
  compress (default [] (served_text repo base_commit_sha path)).

Definition excerpt_for (repo : Repository) (base_commit_sha func_spec : str)
  : str :=
  match parse_function_spec func_spec with
  | inr parsed => get_code_with_lines repo base_commit_sha parsed.1
  | inl _ => []
  end.

(** A repository that serves [a.py] and [pkg/b.py] and fails on every
    other path. *)
Definition two_file_repo : Repository :=
  {| get_contents := fun path _ =>
       if bool_decide (path = lit "a.py") then
         ret (OneFile {| cf_type := lit "file"; cf_name := lit "a.py";
                         cf_path := lit "a.py";
                         decoded_utf8 := ret (lit "class A:") |})
       else if bool_decide (path = lit "pkg/b.py") then
         ret (OneFile {| cf_type := lit "file"; cf_name := lit "b.py";
                         cf_path := lit "pkg/b.py";
                         decoded_utf8 := ret (lit "def g(x):") |})
       else raise (GithubException (lit "404")) |}.

Definition two_file_github : Github := {| get_repo := fun _ => ret two_file_repo |}.

(** *** Bullet lines *)

(** A character that neither [strip('- ')] nor [strip()] removes. *)
Definition plain_edge (c : ascii) : bool :=
  negb (Ascii.eqb c "-") && negb (Ascii.eqb c " ") && negb (Py.isspace c).

(** A path that a bullet line gives back: no line feed, no opening
    parenthesis, and neither a dash nor a blank at either end. *)
Definition bullet_path (path : str) : Prop :=
  ~ In Py.LF path /\ ~ In "("%char path
  /\ from_option plain_edge true (head path) = true
  /\ from_option plain_edge true (last path) = true.

(** [- <path> (<explanation>)], the line format the prompts ask for. *)
Definition bullet (item : str * str) : str :=
  lit "- " ++ item.1 ++ lit " (" ++ item.2 ++ lit ")".

(** What one line of a response contributes to the extracted paths. *)
Definition path_of_line (line : str) : list str :=
  if Py.startswith (lit "- ") line then
    [Py.strip (Py.strip_chars (lit "- ") (hd [] (Py.split "(" line)))]
  else [].

(** The two bullets of the example response of stage 1. *)
Definition example_bullets : list (str * str) :=
  [(lit "sklearn/svm/tests/test_svm.py",
    lit "Contains SVM test cases similar to the patch");
   (lit "sklearn/svm/base.py",
    lit "Implements core SVM functionality referenced in issue")].

(** *** Task records *)

(** A task whose patch opens with a blank comment line before its first
    comment text. *)
Definition commented_task : gmap string str :=
  {[ "model_patch"%string :=
       lit "diff #" ++ [Py.LF; Py.LF] ++ lit "  fix the bug" ++ [Py.LF]
       ++ lit "more" ]}.

(** A tasks directory that holds one passes file, for the instance
    [sympy__sympy-20916]. *)
Definition one_task_store (path : str) : result tasks_json :=
  if bool_decide
       (path = lit "UTBoost_experiment/tasks/sympy__sympy-20916/passed_agent_passes.json")
  then ret (TaskList [scenario_task; ∅])
  else raise (Exception (lit "No such file or directory")).

(** *** Test cases *)

(** The fences of a Python block in a response. *)
Definition python_fence : str := lit "```python" ++ [Py.LF].
Definition closing_fence : str := lit "```".

(** A context store whose every file holds the given test case. *)
Definition context_with (test_case : str) (path : str)
  : result (gmap string str) :=
  ret {[ "test_case"%string := test_case ]}.

(** A response with a Python block between two sentences. *)
Definition fenced_response : str :=
  lit "Here is the test:" ++ [Py.LF] ++ python_fence
  ++ [Py.LF] ++ lit "def test_f(): assert f(1) == 2" ++ [Py.LF]
  ++ closing_fence ++ [Py.LF] ++ lit "Done.".

(** *** Passes *)

(** The distinct patch texts stored for one task. *)
Definition task_patches (read_passes : str -> option (list agent_pass))
    (tasks_dir task : str) : gset str :=
  match
    read_passes
      (Py.path_join (Py.path_join tasks_dir task) (lit "passed_agent_passes.json"))
  with
  | Some passes => list_to_set (map model_patch passes)
  | None => ∅
  end.

Definition pass_of (task patch agent : string) : agent_pass :=
  {| instance_id := lit task; model_patch := lit patch;
     model_name_or_path := lit agent |}.

(** Two stores with the same patches for the task [t1]: in the first
    two agents submitted the same patch. *)
Definition store_with_repeats (path : str) : option (list agent_pass) :=
  if bool_decide (path = lit "tasks/t1/passed_agent_passes.json") then
    Some [pass_of "t1" "patch A" "agent1"; pass_of "t1" "patch A" "agent2";
          pass_of "t1" "patch B" "agent3"]
  else None.

Definition store_without_repeats (path : str) : option (list agent_pass) :=
  if bool_decide (path = lit "tasks/t1/passed_agent_passes.json") then
    Some [pass_of "t1" "patch B" "agent3"; pass_of "t1" "patch A" "agent1"]
  else None.

(** *** Console entries *)




(** *** File systems *)

(** What [process_prediction] relies on: a directory that was made
    exists, a file that was written exists and reads back as written,
    and writing a file removes nothing. *)
Record lawful {S} (fs : FileSystem S) : Prop := {
  makedirs_exists : forall d s s',
    makedirs fs d s = ret s' -> path_exists fs d s' = true;
  dump_exists : forall p v s s',
    dump_passes fs p v s = ret s' -> path_exists fs p s' = true;
  dump_keeps : forall p v s s' q,
    dump_passes fs p v s = ret s' ->
    path_exists fs q s = true -> path_exists fs q s' = true;
  dump_load : forall p v s s',
    dump_passes fs p v s = ret s' -> load_passes fs p s' = ret v
}.

(** A file system in memory: the directories and the passes files. *)
Definition memory : Type := gset str * gmap str (list agent_pass).

Definition memory_fs : FileSystem memory := {|
  path_exists p s := bool_decide (p ∈ s.1 \/ is_Some (s.2 !! p));
  makedirs d s := ret (s.1 ∪ {[ d ]}, s.2);
  load_passes p s :=
    match s.2 !! p with
    | Some passes => ret passes
    | None => raise (Exception (lit "No such file or directory"))
    end;
  dump_passes p v s := ret (s.1, <[ p := v ]> s.2)
|}.

Definition empty_memory : memory := (∅, ∅).

(** * Properties *)

#[local] Arguments Ascii.eqb : simpl never.
#[local] Arguments N_of_ascii : simpl never.

(** ** The embedding on sample inputs *)

Example split_keeps_empty_fields :
  Py.split Py.LF (lit "a" ++ [Py.LF] ++ lit "b" ++ [Py.LF]) = [lit "a"; lit "b"; []].
Proof. reflexivity. Qed.

Example splitlines_joins_cr_lf :
  Py.splitlines (lit "a" ++ [Py.CR; Py.LF] ++ lit "b" ++ [Py.LF])
  = [lit "a"; lit "b"].
Proof. reflexivity. Qed.

Example class_header_capture :
  class_match (lit "class Foo(Bar): pass") = Some (lit "class Foo(Bar):").
Proof. reflexivity. Qed.

Example def_capture_ends_at_first_colon :
  func_match (lit "def f(x: int) -> int:") = Some (lit "def f(x:").
Proof. reflexivity. Qed.

Example indented_def_is_no_header : func_match (lit "    def m(self):") = None.
Proof. reflexivity. Qed.

Example decorator_needs_a_word : decorator_match (lit "@ x") = false.
Proof. reflexivity. Qed.

Example compress_sample_source :
  compress sample_source
  = Py.join [Py.LF] [lit "@dataclass"; lit "class A(B):"; lit "def f(x:"].
Proof. reflexivity. Qed.

Example first_header_wins :
  search_diff_header (lit "x diff --git a/ diff --git a/astropy/utils/misc.py b/astropy")
  = Some (lit "astropy/utils/misc.py").
Proof. reflexivity. Qed.

Example short_prompt_unchanged :
  truncation_step (lit "One. Two") = lit "One. Two".
Proof. reflexivity. Qed.

Example select_best_solution_empty : select_best_solution [] = ret None.
Proof. reflexivity. Qed.

Example tie_of_different_results_raises :
  select_best_solution [result_with_lines 4 3 3; result_with_lines 4 2 3]
  = raise (TypeError "'<' not supported between instances of 'dict' and 'dict'").
Proof. reflexivity. Qed.

Example success_rate_of_empty_directory :
  calculate_success_rate [] = Some (RInt 0).
Proof. reflexivity. Qed.

(** With [base_commit_sha] bound in an enclosing frame, [build_tree]
    renders the listing. *)
Example build_tree_with_bound_revision :
  build_tree 3 [("base_commit_sha"%string, VStr (lit "HEAD"))] small_repo [] 0
  = Some (Py.join [Py.LF]
            [lit "├── README"; lit "├── src/"; lit "│   ├── a.py"; []]).
Proof. reflexivity. Qed.

(** ** The matcher on single-character classes *)

Section MatcherFacts.
Context {A : Type}.
Implicit Types (k : str -> option A) (cls : ascii -> bool) (s p : str).

Lemma take_drop_while cls s : take_while cls s ++ drop_while cls s = s.
Proof.
  induction s as [|c s IH]; simpl; [reflexivity|].
  destruct (cls c); simpl; [now rewrite IH | reflexivity].
Qed.

Lemma take_while_Forall cls s : Forall (fun c => cls c = true) (take_while cls s).
Proof.
  induction s as [|c s IH]; simpl; [constructor|].
  destruct (cls c) eqn:E; constructor; assumption.
Qed.

Lemma drop_while_app cls p s :
  Forall (fun c => cls c = true) p ->
  drop_while cls (p ++ s) = drop_while cls s.
Proof.
  induction 1 as [|c p Hc _ IH]; simpl; [reflexivity|].
  now rewrite Hc.
Qed.

Lemma lit_app p s k : Re.lit_ p (p ++ s) k = k s.
Proof.
  induction p as [|a p IH]; simpl; [reflexivity|].
  now rewrite Ascii.eqb_refl.
Qed.

Lemma lit_inv p s k r :
  Re.lit_ p s k = Some r -> exists s', s = p ++ s' /\ k s' = Some r.
Proof.
  revert s; induction p as [|a p IH]; simpl; intros s H.
  - now exists s.
  - destruct s as [|c s]; [discriminate|].
    destruct (Ascii.eqb a c) eqn:E; [|discriminate].
    apply Ascii.eqb_eq in E; subst c.
    destruct (IH _ H) as (s' & -> & Hk). now exists s'.
Qed.

(** A greedy star whose continuation rejects every text that starts in
    the class gives up nothing: it continues after the longest run. *)
Lemma star_reject cls s k :
  (forall c s', cls c = true -> k (c :: s') = None) ->
  Re.star cls s k = k (drop_while cls s).
Proof.
  intros Hk; induction s as [|c s IH]; simpl; [reflexivity|].
  destruct (cls c) eqn:E; [|reflexivity].
  rewrite IH. destruct (k (drop_while cls s)) eqn:E'; [reflexivity|].
  now apply Hk.
Qed.

(** A greedy star whose continuation skips the class by itself. *)
Lemma star_absorb cls s k :
  (forall c s', cls c = true -> k (c :: s') = k s') ->
  Re.star cls s k = k s.
Proof.
  intros Hk; induction s as [|c s IH]; simpl; [reflexivity|].
  destruct (cls c) eqn:E; [|reflexivity].
  rewrite IH, Hk by assumption. now destruct (k s).
Qed.

Lemma plus_cons cls c s k :
  Re.plus cls (c :: s) k = if cls c then Re.star cls s k else None.
Proof. reflexivity. Qed.

Lemma star_total cls s k :
  (forall s', is_Some (k s')) -> is_Some (Re.star cls s k).
Proof.
  intros Hk; induction s as [|c s IH]; simpl; [apply Hk|].
  destruct (cls c); [|apply Hk].
  destruct IH as [r ->]. now exists r.
Qed.

(** The lazy [.*?] followed by a colon stops at the first colon. *)
Lemma lazy_dot_colon s (f : str -> A) :
  Re.star_lazy Re.dot s (fun s4 => Re.lit_ (lit ":") s4 (fun rest => Some (f rest)))
  = f <$> after_colon s.
Proof.
  unfold lit; induction s as [|c s IH]; simpl; [reflexivity|].
  rewrite (Ascii.eqb_sym ":" c).
  destruct (Ascii.eqb c ":"); [reflexivity|].
  unfold Re.dot at 1. destruct (Ascii.eqb c Py.LF); simpl; [reflexivity|].
  exact IH.
Qed.
End MatcherFacts.

(** ** Character classes *)

Ltac by_cases_on_char c :=
  destruct c as [[] [] [] [] [] [] [] []]; vm_compute; try reflexivity;
  try discriminate; auto.

Lemma isword_not_space c : Py.isword c = true -> Py.isspace c = false.
Proof. by_cases_on_char c. Qed.

Lemma isword_not_colon c : Py.isword c = true -> Ascii.eqb c ":" = false.
Proof. by_cases_on_char c. Qed.

Lemma isword_not_LF c : Py.isword c = true -> Ascii.eqb c Py.LF = false.
Proof. by_cases_on_char c. Qed.

Lemma after_colon_app pre rest :
  Forall plain pre -> after_colon (pre ++ ":" :: rest)%char = Some rest.
Proof.
  induction 1 as [|c pre [Hc Hl] _ IH]; simpl; [reflexivity|].
  now rewrite Hc, Hl.
Qed.

Lemma after_colon_inv s rest :
  after_colon s = Some rest ->
  exists pre, s = pre ++ (":" :: rest)%char /\ Forall plain pre.
Proof.
  induction s as [|c s IH]; simpl; [discriminate|].
  destruct (Ascii.eqb c ":") eqn:Hc.
  - intros [= ->]. apply Ascii.eqb_eq in Hc; subst c.
    exists []. split; [reflexivity|constructor].
  - destruct (Ascii.eqb c Py.LF) eqn:Hl; [discriminate|].
    intros H. destruct (IH H) as (pre & -> & Hpre).
    exists (c :: pre). split; [reflexivity|].
    constructor; [split|]; assumption.
Qed.

Lemma after_colon_word c s :
  Py.isword c = true -> after_colon (c :: s) = after_colon s.
Proof.
  intros Hw; simpl.
  now rewrite (isword_not_colon _ Hw), (isword_not_LF _ Hw).
Qed.

Lemma consumed_app (g rest : str) : Re.consumed (g ++ rest) rest = g.
Proof.
  unfold Re.consumed. rewrite length_app.
  replace (length g + length rest - length rest)%nat with (length g) by lia.
  apply take_app_length.
Qed.

(** ** Shape of the header and decorator patterns *)

Section Headers.
Variable keyword : str.

Lemma word_part_rejects_space line c s :
  Py.isspace c = true -> header_word_part line (c :: s) = None.
Proof.
  intros Hc. unfold header_word_part, Re.plus.
  destruct (Py.isword c) eqn:Hw; [|reflexivity].
  apply isword_not_space in Hw. congruence.
Qed.

Lemma tail_skips_word line c s :
  Py.isword c = true -> header_tail line (c :: s) = header_tail line s.
Proof.
  intros Hw. unfold header_tail. rewrite !lazy_dot_colon.
  now rewrite after_colon_word.
Qed.

(** A line of the shape keyword, blanks, word, anything without colon,
    colon is matched up to that colon. *)
Lemma header_match_shape ws w pre rest :
  ws <> [] -> Forall (fun c => Py.isspace c = true) ws ->
  w <> [] -> Forall (fun c => Py.isword c = true) w ->
  Forall plain pre ->
  header_match keyword (keyword ++ ws ++ w ++ pre ++ (":" :: rest)%char)
  = Some (keyword ++ ws ++ w ++ pre ++ [":"%char]).
Proof.
  intros Hws0 Hws Hw0 Hw Hpre.
  destruct ws as [|c ws]; [congruence|].
  destruct w as [|d w]; [congruence|].
  inversion Hws as [|? ? Hc Hws']; subst.
  inversion Hw as [|? ? Hd Hw']; subst.
  set (line := keyword ++ (c :: ws) ++ (d :: w) ++ pre ++ (":" :: rest)%char).
  unfold header_match. fold (header_tail line). fold (header_word_part line).
  unfold line at 1. rewrite lit_app.
  rewrite <- app_comm_cons, plus_cons, Hc.
  rewrite star_reject by (intros; now apply word_part_rejects_space).
  rewrite drop_while_app by assumption.
  rewrite <- app_comm_cons. simpl drop_while.
  rewrite (isword_not_space _ Hd).
  unfold header_word_part. rewrite plus_cons, Hd.
  rewrite star_absorb by (intros; now apply tail_skips_word).
  unfold header_tail. rewrite lazy_dot_colon.
  rewrite (app_assoc w pre), after_colon_app.
  - simpl. f_equal.
    replace line with ((keyword ++ (c :: ws) ++ (d :: w) ++ pre ++ [":"%char]) ++ rest).
    + apply consumed_app.
    + unfold line. now rewrite <- !app_assoc.
  - apply Forall_app; split; [|assumption].
    eapply Forall_impl; [exact Hw'|].
    intros a Ha; split; [now apply isword_not_colon | now apply isword_not_LF].
Qed.

Lemma header_match_inv line header :
  header_match keyword line = Some header ->
  exists ws w pre rest,
    line = keyword ++ ws ++ w ++ pre ++ (":" :: rest)%char
    /\ header = keyword ++ ws ++ w ++ pre ++ [":"%char]
    /\ ws <> [] /\ Forall (fun c => Py.isspace c = true) ws
    /\ w <> [] /\ Forall (fun c => Py.isword c = true) w
    /\ Forall plain pre.
Proof.
  unfold header_match. fold (header_tail line). fold (header_word_part line).
  intros H. apply lit_inv in H as (s1 & Hline & H).
  unfold Re.plus in H at 1.
  destruct s1 as [|c s1]; [discriminate|].
  destruct (Py.isspace c) eqn:Hc; [|discriminate].
  rewrite star_reject in H by (intros; now apply word_part_rejects_space).
  pose proof (take_drop_while Py.isspace s1) as Hsplit.
  destruct (drop_while Py.isspace s1) as [|d s2] eqn:E2; [discriminate|].
  unfold header_word_part, Re.plus in H.
  destruct (Py.isword d) eqn:Hd; [|discriminate].
  rewrite star_absorb in H by (intros; now apply tail_skips_word).
  unfold header_tail in H. rewrite lazy_dot_colon in H.
  destruct (after_colon s2) as [rest|] eqn:E3; [|discriminate].
  apply after_colon_inv in E3 as (pre & -> & Hpre).
  simpl in H. injection H as <-.
  exists (c :: take_while Py.isspace s1), [d], pre, rest.
  assert (Hl : line = (keyword ++ (c :: take_while Py.isspace s1) ++ [d]
                       ++ pre ++ [":"%char]) ++ rest).
  { rewrite Hline.
    transitivity (keyword ++ c :: take_while Py.isspace s1
                    ++ d :: pre ++ (":" :: rest)%char);
      [now rewrite Hsplit | now rewrite <- !app_assoc]. }
  split; [rewrite Hl; now rewrite <- !app_assoc|].
  split; [rewrite Hl; apply consumed_app|].
  split; [discriminate|].
  split; [constructor; [assumption | apply take_while_Forall]|].
  split; [discriminate|].
  split; [repeat constructor; assumption | assumption].
Qed.

(** A capture is matched again as itself, and is a prefix of its line. *)
Lemma header_match_fixed line header :
  header_match keyword line = Some header ->
  header_match keyword header = Some header
  /\ exists rest, line = header ++ rest.
Proof.
  intros H. apply header_match_inv in H
    as (ws & w & pre & rest & -> & -> & Hws0 & Hws & Hw0 & Hw & Hpre).
  split.
  - pose proof (header_match_shape ws w pre [] Hws0 Hws Hw0 Hw Hpre) as E.
    exact E.
  - exists rest. now rewrite <- !app_assoc.
Qed.
End Headers.

Lemma decorator_match_iff line :
  decorator_match line = true
  <-> exists c rest, line = ("@" :: c :: rest)%char /\ Py.isword c = true.
Proof.
  unfold decorator_match. rewrite bool_decide_eq_true. split.
  - intros [r H]. apply lit_inv in H as (s1 & -> & H).
    destruct s1 as [|c s1]; [discriminate|].
    rewrite plus_cons in H. destruct (Py.isword c) eqn:Hc; [|discriminate].
    now exists c, s1.
  - intros (c & rest & -> & Hc).
    change ("@" :: c :: rest)%char with (lit "@" ++ c :: rest).
    rewrite lit_app, plus_cons, Hc. apply star_total. intros s'. now exists s'.
Qed.

(** ** [strip], [split] and [join] *)

Lemma lstrip_stop a c b :
  Py.isspace c = false -> Py.lstrip (a ++ c :: b) = Py.lstrip a ++ c :: b.
Proof.
  intros Hc. induction a as [|x a IH]; simpl.
  - now rewrite Hc.
  - destruct (Py.isspace x); [exact IH | reflexivity].
Qed.

Lemma lstrip_idem s : Py.lstrip (Py.lstrip s) = Py.lstrip s.
Proof.
  induction s as [|c s IH]; simpl; [reflexivity|].
  destruct (Py.isspace c) eqn:Hc; [exact IH|]. simpl. now rewrite Hc.
Qed.

Lemma lstrip_incl s c : In c (Py.lstrip s) -> In c s.
Proof.
  induction s as [|x s IH]; simpl; [tauto|].
  destruct (Py.isspace x); [auto | simpl; tauto].
Qed.

Lemma strip_incl s c : In c (Py.strip s) -> In c s.
Proof.
  unfold Py.strip, Py.rstrip. intros H.
  apply lstrip_incl. apply in_rev. apply lstrip_incl. now apply in_rev in H.
Qed.

Lemma strip_decorator c rest :
  Py.isword c = true ->
  Py.strip ("@" :: c :: rest)%char
  = ("@" :: c :: rev (Py.lstrip (rev rest)))%char.
Proof.
  intros Hc. unfold Py.strip.
  change (Py.lstrip ("@" :: c :: rest)%char) with ("@" :: c :: rest)%char.
  unfold Py.rstrip. simpl rev. rewrite <- app_assoc. simpl app.
  rewrite lstrip_stop by now apply isword_not_space.
  rewrite rev_app_distr. reflexivity.
Qed.

Lemma split_not_nil sep s : Py.split sep s <> [].
Proof.
  destruct s as [|c s]; simpl; [discriminate|].
  destruct (Ascii.eqb c sep); [discriminate|].
  destruct (Py.split sep s); discriminate.
Qed.

(** No field of a split holds the separator. *)
Lemma split_fields sep s : Forall (fun l => ~ In sep l) (Py.split sep s).
Proof.
  induction s as [|c s IH]; simpl.
  - constructor; [tauto | constructor].
  - destruct (Ascii.eqb c sep) eqn:E.
    + constructor; [tauto | assumption].
    + apply Ascii.eqb_neq in E.
      destruct (Py.split sep s) as [|l ls]; [repeat constructor; simpl; intuition|].
      inversion IH; subst. constructor; [simpl; intuition | assumption].
Qed.

Lemma split_plain sep p : ~ In sep p -> Py.split sep p = [p].
Proof.
  induction p as [|c p IH]; simpl; [reflexivity|]. intros H.
  destruct (Ascii.eqb c sep) eqn:E.
  - apply Ascii.eqb_eq in E. tauto.
  - rewrite IH by tauto. reflexivity.
Qed.

Lemma split_app sep p s :
  ~ In sep p -> Py.split sep (p ++ sep :: s) = p :: Py.split sep s.
Proof.
  induction p as [|c p IH]; simpl; intros H.
  - now rewrite Ascii.eqb_refl.
  - destruct (Ascii.eqb c sep) eqn:E.
    + apply Ascii.eqb_eq in E. tauto.
    + rewrite IH by tauto. reflexivity.
Qed.

(** Joining fields free of the separator and splitting again gives the
    fields back. *)
Lemma split_join sep parts :
  parts <> [] -> Forall (fun l => ~ In sep l) parts ->
  Py.split sep (Py.join [sep] parts) = parts.
Proof.
  induction parts as [|p ps IH]; [congruence|]. intros _ H.
  inversion H as [|? ? Hp Hps]; subst.
  destruct ps as [|q ps].
  - simpl. now apply split_plain.
  - change (Py.join [sep] (p :: q :: ps))
      with (p ++ sep :: Py.join [sep] (q :: ps)).
    rewrite split_app by assumption. f_equal. now apply IH.
Qed.

(** ** The outline loop *)

Lemma outline_step_compressed st line :
  compressed (outline_step st line) = compressed st ++ outline_keep line.
Proof.
  unfold outline_step, outline_keep.
  destruct (decorator_match line); [reflexivity|].
  destruct (class_match line); [reflexivity|].
  destruct (func_match line); [reflexivity|].
  rewrite app_nil_r.
  destruct (in_class st && _); [reflexivity|].
  destruct (in_function st && _); reflexivity.
Qed.

Lemma outline_fold_compressed lines st :
  compressed (fold_left outline_step lines st)
  = compressed st ++ flat_map outline_keep lines.
Proof.
  revert st; induction lines as [|l lines IH]; intros st; simpl.
  - now rewrite app_nil_r.
  - rewrite IH, outline_step_compressed. now rewrite <- app_assoc.
Qed.

Lemma outline_lines_eq file_content :
  outline_lines file_content
  = flat_map outline_keep (Py.split Py.LF file_content).
Proof. unfold outline_lines, outline_loop. apply outline_fold_compressed. Qed.

(** What one line contributes is kept as it is by a second pass, is an
    outline line, and holds no character its line does not. *)
Lemma outline_keep_fixed line e :
  In e (outline_keep line) ->
  outline_keep e = [e] /\ is_outline_line e /\ e <> []
  /\ (forall c, In c e -> In c line).
Proof.
  unfold outline_keep.
  destruct (decorator_match line) eqn:Hd.
  - intros [<-|[]].
    pose proof Hd as Hd'. apply decorator_match_iff in Hd' as (c & rest & -> & Hc).
    assert (Hfix : decorator_match (Py.strip ("@" :: c :: rest)%char) = true).
    { rewrite strip_decorator by assumption. apply decorator_match_iff. eauto. }
    split; [|split; [now left | split]].
    + rewrite Hfix. f_equal.
      rewrite strip_decorator by assumption.
      rewrite strip_decorator by assumption.
      now rewrite rev_involutive, lstrip_idem.
    + rewrite strip_decorator by assumption. discriminate.
    + intros x. apply strip_incl.
  - destruct (class_match line) as [h|] eqn:Hc.
    + intros [<-|[]]. apply header_match_fixed in Hc as [Hfix [rest ->]].
      assert (decorator_match h = false) as Hnd.
      { destruct (decorator_match h) eqn:E; [|reflexivity].
        apply decorator_match_iff in E as (c & r & -> & _).
        apply header_match_inv in Hfix as (? & ? & ? & ? & E & _). discriminate. }
      split; [|split; [right; left; unfold class_match; eauto | split]].
      * rewrite Hnd. unfold class_match. now rewrite Hfix.
      * apply header_match_inv in Hfix as (? & ? & ? & ? & _ & -> & _). discriminate.
      * intros x Hx. apply in_or_app. now left.
    + destruct (func_match line) as [h|] eqn:Hf; [|intros []].
      intros [<-|[]]. apply header_match_fixed in Hf as [Hfix [rest ->]].
      assert (decorator_match h = false) as Hnd.
      { destruct (decorator_match h) eqn:E; [|reflexivity].
        apply decorator_match_iff in E as (c & r & -> & _).
        apply header_match_inv in Hfix as (? & ? & ? & ? & E & _). discriminate. }
      assert (class_match h = None) as Hnc.
      { destruct (class_match h) eqn:E; [|reflexivity].
        apply header_match_inv in E as (? & ? & ? & ? & E & _).
        apply header_match_inv in Hfix as (? & ? & ? & ? & E' & _).
        rewrite E in E'. discriminate. }
      split; [|split; [right; right; unfold func_match; eauto | split]].
      * rewrite Hnd, Hnc. unfold func_match. now rewrite Hfix.
      * apply header_match_inv in Hfix as (? & ? & ? & ? & _ & -> & _). discriminate.
      * intros x Hx. apply in_or_app. now left.
Qed.

Lemma outline_lines_props file_content :
  Forall (fun e => outline_keep e = [e] /\ is_outline_line e /\ e <> []
                   /\ ~ In Py.LF e)
    (outline_lines file_content).
Proof.
  rewrite outline_lines_eq. apply List.Forall_forall. intros e He.
  apply in_flat_map in He as (line & Hline & He).
  destruct (outline_keep_fixed _ _ He) as (Hfix & Hout & Hne & Hincl).
  repeat split; try assumption.
  intros HLF. apply Hincl in HLF.
  pose proof (split_fields Py.LF file_content) as Hf.
  rewrite List.Forall_forall in Hf. exact (Hf _ Hline HLF).
Qed.

Lemma flat_map_fixed {X} (f : X -> list X) l :
  Forall (fun e => f e = [e]) l -> flat_map f l = l.
Proof.
  induction 1 as [|e l He _ IH]; simpl; [reflexivity|].
  now rewrite He, IH.
Qed.

(** C5: the flags of the compression loop are inert.  The value stored
    for a file equals that of the flag-free filter, which keeps the
    decorator lines and the class and function header captures; and the
    lines appended to [compressed] are the same whatever values the two
    flags start from. *)
Theorem outline_flags_inert (file_content : str) :
  compress file_content = compress_flag_free file_content
  /\ forall inside_class inside_function : bool,
       compressed
         (fold_left outline_step (Py.split Py.LF file_content)
            {| compressed := []; in_class := inside_class;
               in_function := inside_function |})
       = outline_lines file_content.
Proof.
  split.
  - unfold compress, compress_flag_free. now rewrite outline_lines_eq.
  - intros ic ifn. rewrite outline_lines_eq. apply outline_fold_compressed.
Qed.

(** C7: no false positives.  Every line appended to [compressed] is a
    decorator line, a class header or a function header, and so is every
    line of the joined text unless that text is empty. *)
Theorem outline_no_false_positive (file_content : str) :
  Forall is_outline_line (outline_lines file_content)
  /\ (compress file_content = []
      \/ Forall is_outline_line (Py.split Py.LF (compress file_content))).
Proof.
  pose proof (outline_lines_props file_content) as Hp.
  assert (Hall : Forall is_outline_line (outline_lines file_content)).
  { eapply Forall_impl; [exact Hp|]. simpl; tauto. }
  split; [exact Hall|].
  unfold compress.
  destruct (outline_lines file_content) as [|e es] eqn:E; [now left|].
  right. rewrite split_join; [exact Hall | discriminate |].
  eapply Forall_impl; [exact Hp|]. simpl; tauto.
Qed.

(** C6: the compression step is idempotent: compressing a compressed
    text returns it unchanged. *)
Theorem outline_idempotent (file_content : str) :
  compress (compress file_content) = compress file_content.
Proof.
  pose proof (outline_lines_props file_content) as Hp.
  unfold compress at 1 3. rewrite (outline_lines_eq (compress file_content)).
  unfold compress.
  destruct (outline_lines file_content) as [|e es] eqn:E; [reflexivity|].
  rewrite split_join; [| discriminate |].
  - rewrite flat_map_fixed; [reflexivity|].
    eapply Forall_impl; [exact Hp|]. simpl; tauto.
  - eapply Forall_impl; [exact Hp|]. simpl; tauto.
Qed.

(** ** Line-numbered excerpts *)

Lemma string_of_uint_no_LF d :
  ~ In Py.LF (list_ascii_of_string (NilEmpty.string_of_uint d)).
Proof.
  induction d; simpl; intros H; try tauto;
    (destruct H as [H|H]; [discriminate H | tauto]).
Qed.

Lemma str_of_int_no_LF n : ~ In Py.LF (Py.str_of_int n).
Proof.
  unfold Py.str_of_int. destruct (Z.to_int n) as [d|d]; simpl.
  - apply string_of_uint_no_LF.
  - intros [H|H]; [discriminate H | now apply string_of_uint_no_LF in H].
Qed.

Lemma number_line_no_LF i line :
  ~ In Py.LF line -> ~ In Py.LF (number_line i line).
Proof.
  intros Hl H. unfold number_line in H.
  apply in_app_or in H as [H|H]; [now apply str_of_int_no_LF in H|].
  apply in_app_or in H as [H|H]; [|tauto].
  simpl in H. destruct H as [H|[H|[]]]; discriminate H.
Qed.

Lemma imap_Forall {X Y} (P : X -> Prop) (Q : Y -> Prop) (f : nat -> X -> Y) l :
  (forall i x, P x -> Q (f i x)) -> Forall P l -> Forall Q (imap f l).
Proof.
  intros Hf H. revert f Hf.
  induction H as [|x l Hx _ IH]; intros f Hf; simpl; constructor.
  - now apply Hf.
  - apply IH. intros i y. apply Hf.
Qed.

Lemma join_empty_in c parts :
  In c (Py.join [] parts) -> Exists (fun p => In c p) parts.
Proof.
  induction parts as [|p ps IH]; [intros []|].
  destruct ps as [|q ps]; [intros H; now left|].
  change (Py.join [] (p :: q :: ps)) with (p ++ Py.join [] (q :: ps)).
  intros H. apply in_app_or in H as [H|H]; [now left | right; auto].
Qed.

(** C2: the excerpt does not keep the line terminators.  On the file
    with the two lines [a] and [b] the excerpt is [1: a2: b], from which
    removing the prefixes [1: ] and [2: ] leaves [ab]: the line feed is
    gone.  In general no excerpt holds a line feed at all, so the text
    comes back from an excerpt only when it is a single line. *)
Theorem excerpt_loses_line_feeds :
  get_code_with_lines (single_file_repo two_lines) (lit "HEAD") (lit "f.py")
  = lit "1: a2: b"
  /\ forall repo base_commit_sha file_path,
       ~ In Py.LF (get_code_with_lines repo base_commit_sha file_path).
Proof.
  split; [reflexivity|].
  intros repo sha path. unfold get_code_with_lines, try_except, bind.
  destruct (get_contents repo path (VStr sha)) as [e|[c|cs]];
    [simpl; tauto | | simpl; tauto].
  destruct (bool_decide _); [|simpl; tauto].
  destruct (decoded_utf8 c) as [e|file_content]; simpl; [tauto|].
  intros H. apply join_empty_in in H. apply List.Exists_exists in H as (p & Hp & HLF).
  pose proof (imap_Forall (fun l => ~ In Py.LF l) (fun l => ~ In Py.LF l)
                number_line (Py.split Py.LF file_content)
                number_line_no_LF (split_fields Py.LF file_content)) as Hall.
  rewrite List.Forall_forall in Hall. exact (Hall _ Hp HLF).
Qed.

(** ** [re.search] and the diff header *)

Section Search.
Context {A : Type}.
Implicit Types (pat : str -> option A) (s : str).

Lemma search_None pat s :
  Re.search pat s = None <-> forall i, pat (drop i s) = None.
Proof.
  induction s as [|c s IH]; simpl.
  - destruct (pat []) eqn:E; split; try discriminate; try reflexivity.
    + intros H. specialize (H 0%nat). simpl in H. congruence.
    + intros _ i. now rewrite drop_nil.
  - destruct (pat (c :: s)) eqn:E.
    + split; [discriminate|]. intros H. specialize (H 0%nat). simpl in H. congruence.
    + rewrite IH. split.
      * intros H [|i]; [exact E | apply H].
      * intros H i. apply (H (S i)).
Qed.

Lemma search_first pat s i r :
  pat (drop i s) = Some r ->
  (forall j, (j < i)%nat -> pat (drop j s) = None) ->
  Re.search pat s = Some r.
Proof.
  revert i; induction s as [|c s IH]; intros i Hi Hbefore; simpl.
  - rewrite drop_nil in Hi. now rewrite Hi.
  - destruct i as [|i].
    + simpl in Hi. now rewrite Hi.
    + pose proof (Hbefore 0%nat ltac:(lia)) as H0. simpl in H0. rewrite H0.
      apply (IH i); [exact Hi|].
      intros j Hj. apply (Hbefore (S j)). lia.
Qed.
End Search.

Lemma star_total_eq {A} cls s (k : str -> option A) :
  (forall s', is_Some (k s')) -> Re.star cls s k = k (drop_while cls s).
Proof.
  intros Hk; induction s as [|c s IH]; simpl; [reflexivity|].
  destruct (cls c); [|reflexivity].
  rewrite IH. now destruct (Hk (drop_while cls s)) as [r ->].
Qed.

Lemma drop_while_stop cls s :
  match s with
  | [] => True
  | c :: _ => cls c = false
  end -> drop_while cls s = s.
Proof. destruct s as [|c s]; simpl; [reflexivity|]. now intros ->. Qed.

Lemma drop_while_head cls s :
  match drop_while cls s with
  | [] => True
  | c :: _ => cls c = false
  end.
Proof.
  induction s as [|c s IH]; simpl; [exact I|].
  destruct (cls c) eqn:E; [exact IH | exact E].
Qed.

(** The pattern matches at the start of a text exactly when a header
    stands there, and captures its path. *)
Lemma diff_header_pattern_iff patch i path :
  diff_header_pattern (drop i patch) = Some path <-> diff_header_at patch i path.
Proof.
  unfold diff_header_pattern, diff_header_at. split.
  - intros H. apply lit_inv in H as (s1 & Hs & H).
    destruct s1 as [|c s1]; [discriminate|].
    rewrite plus_cons in H. destruct (Re.notspace c) eqn:Hc; [|discriminate].
    rewrite star_total_eq in H by (intros; eexists; reflexivity).
    injection H as <-.
    pose proof (take_drop_while Re.notspace s1) as Hsplit.
    assert (Hcons : Re.consumed (c :: s1) (drop_while Re.notspace s1)
                    = c :: take_while Re.notspace s1).
    { rewrite <- Hsplit at 1. apply (consumed_app (c :: take_while Re.notspace s1)). }
    exists (drop_while Re.notspace s1). rewrite Hcons.
    split; [rewrite Hs; simpl; now rewrite Hsplit|].
    split; [discriminate|]. split.
    + constructor; [now apply negb_true_iff in Hc|].
      eapply Forall_impl; [apply take_while_Forall|].
      intros a Ha. now apply negb_true_iff in Ha.
    + pose proof (drop_while_head Re.notspace s1) as Hh.
      destruct (drop_while Re.notspace s1); [exact I|].
      now apply negb_false_iff in Hh.
  - intros (rest & -> & Hne & Hpath & Hrest).
    rewrite lit_app. destruct path as [|c path]; [congruence|].
    inversion Hpath as [|? ? Hc Hpath']; subst.
    rewrite <- app_comm_cons, plus_cons. unfold Re.notspace at 1. rewrite Hc. simpl negb.
    rewrite star_total_eq by (intros; eexists; reflexivity).
    rewrite drop_while_app, drop_while_stop.
    + f_equal. apply (consumed_app (c :: path)).
    + destruct rest; [exact I|]. unfold Re.notspace. now rewrite Hrest.
    + eapply Forall_impl; [exact Hpath'|]. intros a Ha. unfold Re.notspace. now rewrite Ha.
Qed.

Lemma split_head_segment path :
  hd [] (Py.split "/" path) = first_path_segment path.
Proof.
  unfold first_path_segment. induction path as [|c path IH]; simpl; [reflexivity|].
  destruct (Ascii.eqb c "/"); simpl; [reflexivity|].
  destruct (Py.split "/" path) eqn:E; simpl in *; now rewrite <- IH.
Qed.

(** C3: [derive_repo_info].  When the patch text holds a diff header,
    the first one decides: owner and name are the first segment of its
    path and [file_path] is the path.  An exception is raised exactly
    when [model_patch] is missing, empty or without any header, and it is
    always a [ValueError]. *)
Theorem derive_repo_info_spec (model_info : gmap string str) :
  (forall patch i path,
      model_info !! "model_patch"%string = Some patch ->
      diff_header_at patch i path ->
      (forall j p, (j < i)%nat -> ~ diff_header_at patch j p) ->
      exists info,
        derive_repo_info model_info = ret info
        /\ info !! "repo_owner"%string = Some (first_path_segment path)
        /\ info !! "repo_name"%string = Some (first_path_segment path)
        /\ info !! "file_path"%string = Some path)
  /\ ((exists e, derive_repo_info model_info = raise e)
      <-> (model_info !! "model_patch"%string = None
           \/ model_info !! "model_patch"%string = Some []
           \/ exists patch,
                model_info !! "model_patch"%string = Some patch
                /\ forall i path, ~ diff_header_at patch i path))
  /\ (forall e, derive_repo_info model_info = raise e ->
                exists msg, e = ValueError msg).
Proof.
  unfold derive_repo_info, search_diff_header.
  destruct (model_info !! "model_patch"%string) as [patch|] eqn:Hget.
  2:{ split; [intros ? ? ? [=]|]. split; [split; eauto|].
      intros e [= <-]. eauto. }
  destruct patch as [|c0 patch0].
  { split.
    - intros ? i ? [= <-] (rest & Hd & _). rewrite drop_nil in Hd. discriminate.
    - split; [split; eauto|]. intros e [= <-]. eauto. }
  set (patch := c0 :: patch0) in *.
  destruct (Re.search diff_header_pattern patch) as [file_path|] eqn:Hs.
  - split; [|split].
    + intros ? i path [= <-] Hat Hfirst.
      apply diff_header_pattern_iff in Hat.
      assert (Re.search diff_header_pattern patch = Some path) as Hs'.
      { apply (search_first _ _ i); [exact Hat|]. intros j Hj.
        destruct (diff_header_pattern (drop j patch)) as [p|] eqn:E; [|reflexivity].
        apply diff_header_pattern_iff in E. now apply Hfirst in E. }
      rewrite Hs in Hs'. injection Hs' as ->.
      eexists. split; [reflexivity|].
      rewrite split_head_segment. now simplify_map_eq.
    + split; [intros [e [=]]|]. intros [[=]|[[=]|(p & [= <-] & Hno)]].
      assert (Re.search diff_header_pattern patch = None) as Hn.
      { apply search_None. intros i.
        destruct (diff_header_pattern (drop i patch)) as [q|] eqn:E; [|reflexivity].
        apply diff_header_pattern_iff in E. now apply Hno in E. }
      congruence.
    + intros e [=].
  - split; [|split].
    + intros ? i path [= <-] Hat _. apply diff_header_pattern_iff in Hat.
      rewrite search_None in Hs. rewrite Hs in Hat. discriminate.
    + split; [|eauto]. intros _. right; right. exists patch. split; [reflexivity|].
      intros i path Hat. apply diff_header_pattern_iff in Hat.
      rewrite search_None in Hs. rewrite Hs in Hat. discriminate.
    + intros e [= <-]. eauto.
Qed.

(** The end-to-end scenario: the record with the patch
    [diff --git a/foo/bar.py b/foo/bar.py ...] yields owner [foo], name
    [foo] and file path [foo/bar.py]. *)
Lemma derive_repo_info_scenario :
  exists info,
    derive_repo_info scenario_task = ret info
    /\ info !! "repo_owner"%string = Some (lit "foo")
    /\ info !! "repo_name"%string = Some (lit "foo")
    /\ info !! "file_path"%string = Some (lit "foo/bar.py").
Proof.
  apply (proj1 (derive_repo_info_spec scenario_task)
           scenario_patch 0%nat (lit "foo/bar.py")).
  - reflexivity.
  - exists (lit " b/foo/bar.py" ++ [Py.LF] ++ lit "...").
    split; [reflexivity|]. split; [discriminate|].
    split; [|reflexivity].
    repeat constructor.
  - intros j p Hj. lia.
Defined.

(** ** Prompt truncation *)

(** [rfind_from] either finds no occurrence and answers the default, or
    answers the offset of an occurrence. *)
Lemma rfind_from_spec c s i last :
  (~ In c s /\ Py.rfind_from c s i last = last)
  \/ (exists k : nat, s !! k = Some c
                      /\ Py.rfind_from c s i last = i + Z.of_nat k).
Proof.
  revert i last; induction s as [|a s IH]; intros i last; simpl.
  - left. tauto.
  - destruct (IH (i + 1) (if Ascii.eqb a c then i else last))
      as [[Hno ->]|(k & Hk & ->)].
    + destruct (Ascii.eqb a c) eqn:E.
      * apply Ascii.eqb_eq in E; subst a. right. exists 0%nat.
        split; [reflexivity | lia].
      * apply Ascii.eqb_neq in E. left. tauto.
    + right. exists (S k). split; [exact Hk | lia].
Qed.

Lemma rfind_spec c s :
  (~ In c s /\ Py.rfind c s = -1)
  \/ (exists k : nat, s !! k = Some c /\ Py.rfind c s = Z.of_nat k).
Proof.
  unfold Py.rfind. destruct (rfind_from_spec c s 0 (-1)) as [H|(k & Hk & E)].
  - now left.
  - right. exists k. split; [exact Hk | lia].
Qed.

Lemma truncation_step_cut prompt :
  Z.of_nat (length prompt) / 4 > max_tokens ->
  Z.of_nat (length (truncation_step prompt)) <= 4 * max_tokens
  /\ (In "."%char (Py.slice_to (4 * max_tokens) prompt) ->
      last (truncation_step prompt) = Some "."%char).
Proof.
  intros Hlen. unfold truncation_step.
  destruct (Z.gtb_spec (Z.of_nat (length prompt) / 4) max_tokens) as [_|Hle]; [|lia].
  replace (max_tokens * 4) with (4 * max_tokens) by lia.
  set (truncated := Py.slice_to (4 * max_tokens) prompt).
  assert (Htr : Z.of_nat (length truncated) <= 4 * max_tokens).
  { unfold truncated, Py.slice_to. rewrite length_take. unfold max_tokens. lia. }
  destruct (rfind_spec "." truncated) as [[Hno ->]|(k & Hk & ->)].
  - simpl negb. cbv iota. split; [exact Htr | tauto].
  - destruct (Z.eqb_spec (Z.of_nat k) (-1)) as [E|_]; [lia|]. simpl negb. cbv iota.
    unfold Py.slice_to at 1 2.
    replace (Z.to_nat (Z.of_nat k + 1)) with (S k) by lia.
    split.
    + rewrite length_take. lia.
    + intros _. rewrite (take_S_r _ _ _ Hk). apply last_snoc.
Qed.

(** C4 as stated fails at the boundary: a prompt of 480,001 characters
    is longer than four times the ceiling, yet its estimate
    [480001 // 4 = 120000] does not exceed the ceiling and the prompt is
    sent whole. *)
Lemma truncation_boundary_counterexample :
  ~ (forall prompt : str,
       Z.of_nat (length prompt) > 4 * max_tokens ->
       Z.of_nat (length (truncation_step prompt)) <= 4 * max_tokens
       /\ (In "."%char (Py.slice_to (4 * max_tokens) prompt) ->
           last (truncation_step prompt) = Some "."%char)).
Proof.
  intros H. specialize (H (uniform_prompt "a" 480001)).
  assert (Hlen : Z.of_nat (length (uniform_prompt "a" 480001)) = 480001).
  { unfold uniform_prompt. rewrite length_replicate. lia. }
  assert (Hsame : truncation_step (uniform_prompt "a" 480001)
                  = uniform_prompt "a" 480001).
  { unfold truncation_step. rewrite Hlen. reflexivity. }
  rewrite Hsame, Hlen in H. unfold max_tokens in H.
  destruct H as [H _]; lia.
Qed.

(** C4, amended: when the estimate [len(prompt) // 4] exceeds the
    ceiling of 120,000, that is from 480,004 characters on, the prompt
    sent has at most 480,000 characters and ends with a period whenever
    a period occurs among the first 480,000 characters; a prompt whose
    estimate does not exceed the ceiling is sent unchanged. *)
Theorem truncation_step_spec (prompt : str) :
  (Z.of_nat (length prompt) >= 4 * max_tokens + 4 ->
   Z.of_nat (length (truncation_step prompt)) <= 4 * max_tokens
   /\ (In "."%char (Py.slice_to (4 * max_tokens) prompt) ->
       last (truncation_step prompt) = Some "."%char))
  /\ (Z.of_nat (length prompt) < 4 * max_tokens + 4 ->
      truncation_step prompt = prompt).
Proof.
  split.
  - intros Hlen. apply truncation_step_cut.
    unfold max_tokens in *.
    pose proof (Z.div_le_mono 480004 (Z.of_nat (length prompt)) 4 ltac:(lia) ltac:(lia)) as Hd.
    change (480004 / 4) with 120001 in Hd. lia.
  - intros Hlen. unfold truncation_step.
    destruct (Z.gtb_spec (Z.of_nat (length prompt) / 4) max_tokens) as [Hgt|_];
      [|reflexivity].
    unfold max_tokens in *.
    pose proof (Z.div_le_mono (Z.of_nat (length prompt)) 480003 4 ltac:(lia) ltac:(lia)) as Hd.
    change (480003 / 4) with 120000 in Hd. lia.
Qed.

(** A prompt of 480,004 periods is cut to the budget and ends with a
    period. *)
Lemma truncation_step_periods :
  Z.of_nat (length (uniform_prompt "." 480004)) >= 4 * max_tokens + 4
  /\ Z.of_nat (length (truncation_step (uniform_prompt "." 480004)))
     <= 4 * max_tokens
  /\ last (truncation_step (uniform_prompt "." 480004)) = Some "."%char.
Proof.
  assert (Hlen : Z.of_nat (length (uniform_prompt "." 480004))
                 >= 4 * max_tokens + 4).
  { unfold uniform_prompt. rewrite length_replicate. unfold max_tokens. lia. }
  split; [exact Hlen|].
  destruct (proj1 (truncation_step_spec (uniform_prompt "." 480004)) Hlen)
    as [Hbound Hlast].
  split; [exact Hbound|]. apply Hlast.
  unfold uniform_prompt, Py.slice_to. rewrite take_replicate.
  apply list_elem_of_In, elem_of_replicate. split; [reflexivity|].
  unfold max_tokens. lia.
Defined.

(** ** The repository tree of stage 1 *)

(** C9: [build_tree] answers the empty text for every repository, path
    and depth.  The name [base_commit_sha] is bound neither in the frame
    of [file_level_localization] nor at module level, so evaluating the
    arguments of the listing call raises [NameError], which the handler
    of [build_tree] turns into the empty tree; the prompt of stage 1 is
    therefore the template with nothing under [Repository Structure:]. *)
Theorem build_tree_always_empty
    (repo_owner repo_name issue_description test_patch : str)
    (github_token : option str) (n : Z) :
  let enclosing :=
    file_level_frame repo_owner repo_name issue_description test_patch
      github_token n ++ module_globals in
  load_name "base_commit_sha" enclosing = raise (NameError "base_commit_sha")
  /\ (forall fuel repo path indent,
        build_tree (S fuel) enclosing repo path indent = Some [])
  /\ (forall fuel g,
        file_level_localization (S fuel) g repo_owner repo_name
          issue_description test_patch github_token n
        = Some
            match get_repo g (repo_owner ++ lit "/" ++ repo_name) with
            | inl e =>
                raise (Exception
                  (lit "Error accessing GitHub repository: " ++ exn_message e))
            | inr _ => ret (file_level_prompt n [] issue_description test_patch)
            end).
Proof.
  intros enclosing.
  assert (Htree : forall fuel repo path indent,
             build_tree (S fuel) enclosing repo path indent = Some [])
    by reflexivity.
  split; [reflexivity|]. split; [exact Htree|].
  intros fuel g. unfold file_level_localization.
  destruct (get_repo g _) as [e|repo]; [reflexivity|].
  fold enclosing. now rewrite Htree.
Qed.

(** ** Success rate *)

Lemma scan_fold dir acc :
  fold_left scan_step dir acc
  = (acc.1 + sum_total_instances dir, acc.2 + sum_completed dir).
Proof.
  revert acc; induction dir as [|f dir IH]; intros [t c].
  - unfold sum_total_instances, sum_completed. simpl. f_equal; lia.
  - simpl fold_left. rewrite IH.
    unfold scan_step, sum_total_instances, sum_completed, scanned.
    rewrite filter_cons.
    destruct (decide _) as [E|E].
    + rewrite E. simpl. f_equal; lia.
    + apply not_true_is_false in E. rewrite E. reflexivity.
Qed.

(** C8: [calculate_success_rate] adds up [total_instances] and the
    lengths of [completed_ids] over the scanned files and returns the
    quotient of the two sums times 100 as a float; it returns zero when
    the summed total is zero.  On two files with totals 10 and 5 and 7
    and 5 completed ids the result is 80.0. *)
Theorem calculate_success_rate_spec (dir : list result_file) :
  (0 < sum_total_instances dir < 2 ^ 53 -> sum_completed dir < 2 ^ 53 ->
   calculate_success_rate dir
   = Some (RFloat (PrimFloat.mul
                     (PrimFloat.div (float_of_int (sum_completed dir))
                        (float_of_int (sum_total_instances dir)))
                     (float_of_int 100))))
  /\ (sum_total_instances dir = 0 -> calculate_success_rate dir = Some (RInt 0))
  /\ calculate_success_rate two_runs = Some (RFloat 80%float).
Proof.
  unfold calculate_success_rate. rewrite scan_fold. simpl fst. simpl snd.
  rewrite !Z.add_0_l.
  split; [|split; [|reflexivity]].
  - intros [Hpos Hlt] Hc.
    destruct (Z.gtb_spec (sum_total_instances dir) 0) as [_|]; [|lia].
    unfold true_div.
    assert (0 <= sum_completed dir) as Hnn.
    { unfold sum_completed. induction (scanned dir) as [|f l IH]; simpl; lia. }
    destruct (Z.ltb_spec (Z.abs (sum_completed dir)) (2 ^ 53)); [|lia].
    destruct (Z.ltb_spec (Z.abs (sum_total_instances dir)) (2 ^ 53)); [|lia].
    reflexivity.
  - intros ->. reflexivity.
Qed.

(** The two result files of the aggregation example. *)
Lemma calculate_success_rate_two_runs :
  sum_total_instances two_runs = 15 /\ sum_completed two_runs = 12
  /\ calculate_success_rate two_runs
     = Some (RFloat (PrimFloat.mul
                       (PrimFloat.div (float_of_int 12) (float_of_int 15))
                       (float_of_int 100))).
Proof.
  split; [reflexivity|]. split; [reflexivity|].
  apply (proj1 (calculate_success_rate_spec two_runs)).
  - vm_compute. split; reflexivity.
  - reflexivity.
Defined.

(** ** Sorting the candidates *)

Lemma candidate_lt_cases x y :
  (x.1 <> y.1 /\ candidate_lt x y = ret (x.1 <? y.1))
  \/ (x.1 = y.1 /\ x.2 = y.2 /\ candidate_lt x y = ret false)
  \/ (conflict x y /\ exists msg, candidate_lt x y = raise (TypeError msg)).
Proof.
  unfold candidate_lt, conflict.
  destruct (Z.eqb_spec x.1 y.1) as [E|E]; simpl.
  - destruct (bool_decide_reflect (x.2 = y.2)) as [E2|E2].
    + right; left. auto.
    + right; right. eauto.
  - left. auto.
Qed.

Lemma insert_candidate_ok x l :
  StronglySorted key_le l ->
  (forall y, In y l -> ~ conflict x y) ->
  exists l', insert_candidate x l = ret l'
             /\ Permutation (x :: l) l' /\ StronglySorted key_le l'.
Proof.
  induction l as [|y l IH]; intros Hs Hfree.
  - exists [x]. repeat split; [reflexivity | repeat constructor].
  - apply StronglySorted_inv in Hs as [Hs Hy]. simpl.
    assert (Hrec : key_le y x ->
              exists l', (do rest' <- insert_candidate x l; ret (y :: rest')) = ret l'
                         /\ Permutation (x :: y :: l) l' /\ StronglySorted key_le l').
    { intros Hle. destruct IH as (l' & -> & Hp & Hs'); [assumption | intros; apply Hfree; now right |].
      exists (y :: l'). split; [reflexivity|]. split.
      - rewrite perm_swap. now constructor.
      - constructor; [assumption|].
        apply List.Forall_forall. intros z Hz.
        apply (Permutation_in _ (Permutation_sym Hp)) in Hz as [<-|Hz]; [exact Hle|].
        rewrite List.Forall_forall in Hy. now apply Hy. }
    destruct (candidate_lt_cases x y) as [[Hne ->]|[(He & _ & ->)|[Hc _]]].
    + simpl. destruct (Z.ltb_spec x.1 y.1) as [Hlt|Hge].
      * exists (x :: y :: l). repeat split; [reflexivity|].
        constructor; [now constructor|].
        constructor; [unfold key_le; lia|].
        eapply Forall_impl; [exact Hy|]. unfold key_le. intros; lia.
      * apply Hrec. unfold key_le. lia.
    + simpl. apply Hrec. unfold key_le. lia.
    + exfalso. apply (Hfree y); [now left | exact Hc].
Qed.

Lemma insert_candidate_err x l :
  StronglySorted key_le l ->
  (exists y, In y l /\ conflict x y) ->
  exists msg, insert_candidate x l = raise (TypeError msg).
Proof.
  induction l as [|y l IH]; intros Hs (z & Hz & Hc); [destruct Hz|].
  apply StronglySorted_inv in Hs as [Hs Hy]. simpl.
  destruct (candidate_lt_cases x y) as [[Hne ->]|[(He & He2 & ->)|[_ [msg ->]]]].
  - simpl. destruct Hz as [->|Hz]; [destruct Hc; contradiction|].
    destruct (Z.ltb_spec x.1 y.1) as [Hlt|Hge].
    + rewrite List.Forall_forall in Hy. specialize (Hy _ Hz).
      destruct Hc as [Hc _]. unfold key_le in Hy. lia.
    + destruct IH as [msg ->]; [assumption | eauto |]. now exists msg.
  - simpl. destruct Hz as [->|Hz]; [destruct Hc; contradiction|].
    destruct IH as [msg ->]; [assumption | eauto |]. now exists msg.
  - now exists msg.
Qed.

Lemma insert_candidate_raises x l e :
  insert_candidate x l = raise e ->
  exists msg y, e = TypeError msg /\ In y l /\ conflict x y.
Proof.
  induction l as [|y l IH]; simpl; [discriminate|].
  destruct (candidate_lt_cases x y) as [[_ ->]|[(_ & _ & ->)|[Hc [msg ->]]]]; simpl.
  - destruct (x.1 <? y.1); [discriminate|].
    destruct (insert_candidate x l); [|discriminate].
    intros [= <-]. destruct IH as (msg & z & ? & ? & ?); eauto 6.
  - destruct (insert_candidate x l); [|discriminate].
    intros [= <-]. destruct IH as (msg & z & ? & ? & ?); eauto 6.
  - intros [= <-]. eauto 6.
Qed.

Lemma sort_fold_raise (l : list (Z * EvaluationResult)) e :
  fold_left (fun acc x => do done <- acc; insert_candidate x done) l (raise e)
  = raise e.
Proof. induction l; simpl; auto. Qed.

(** The sort either finds the whole input free of conflicts and returns
    it sorted, or meets a conflict and raises [TypeError]. *)
Lemma sorted_run l s :
  StronglySorted key_le s -> conflict_free s ->
  (conflict_free (s ++ l)
   /\ exists s',
        fold_left (fun acc x => do done <- acc; insert_candidate x done) l (ret s)
        = ret s'
        /\ Permutation (s ++ l) s' /\ StronglySorted key_le s')
  \/ ((exists a b, In a (s ++ l) /\ In b (s ++ l) /\ conflict a b)
      /\ exists msg,
           fold_left (fun acc x => do done <- acc; insert_candidate x done) l (ret s)
           = raise (TypeError msg)).
Proof.
  revert s; induction l as [|x l IH]; intros s Hs Hfree.
  - left. rewrite app_nil_r. split; [exact Hfree|].
    exists s. repeat split; [reflexivity | assumption].
  - simpl fold_left. simpl bind.
    destruct (insert_candidate x s) as [e|s1] eqn:E.
    + right. destruct (insert_candidate_raises _ _ _ E) as (msg & y & -> & Hy & Hc).
      rewrite sort_fold_raise. split; [|eauto].
      exists x, y. split; [apply in_or_app; right; now left|].
      split; [apply in_or_app; now left | exact Hc].
    + assert (Hx : forall y, In y s -> ~ conflict x y).
      { intros y Hy Hc. destruct (insert_candidate_err x s Hs) as [msg Hm]; [eauto|].
        unfold raise in Hm. congruence. }
      destruct (insert_candidate_ok x s Hs Hx) as (s1' & E' & Hp & Hs1).
      rewrite E in E'. unfold ret in E'. injection E' as <-.
      assert (Hfree1 : conflict_free s1).
      { intros a b Ha Hb.
        apply (Permutation_in _ (Permutation_sym Hp)) in Ha, Hb.
        destruct Ha as [<-|Ha], Hb as [<-|Hb].
        - intros [_ H]; congruence.
        - now apply Hx.
        - intros [H1 H2]. apply (Hx _ Ha). split; congruence.
        - now apply Hfree. }
      assert (Hperm : Permutation (s ++ x :: l) (s1 ++ l)).
      { rewrite <- Hp. rewrite <- Permutation_middle. reflexivity. }
      change (@inr exn (list (Z * EvaluationResult)) s1) with (ret s1).
      destruct (IH s1 Hs1 Hfree1) as [(Hf & s' & -> & Hp' & Hs')|((a & b & Ha & Hb & Hc) & msg & ->)].
      * left. split.
        -- intros a b Ha Hb. apply (Permutation_in _ Hperm) in Ha, Hb. now apply Hf.
        -- exists s'. repeat split; [|assumption]. now rewrite Hperm.
      * right. split; [|eauto]. exists a, b.
        split; [now apply (Permutation_in _ (Permutation_sym Hperm))|].
        split; [now apply (Permutation_in _ (Permutation_sym Hperm)) | exact Hc].
Qed.

Lemma sorted_candidates_run l :
  (conflict_free l
   /\ exists s', sorted_candidates l = ret s'
                 /\ Permutation l s' /\ StronglySorted key_le s')
  \/ ((exists a b, In a l /\ In b l /\ conflict a b)
      /\ exists msg, sorted_candidates l = raise (TypeError msg)).
Proof.
  apply (sorted_run l []); [constructor | intros a b []].
Qed.

Lemma candidates_conflict (results : list EvaluationResult) :
  (exists a b,
      In a (map (fun res => (- patch_size res, res)) results)
      /\ In b (map (fun res => (- patch_size res, res)) results)
      /\ conflict a b)
  <-> tied_unequal results.
Proof.
  unfold tied_unequal, conflict. split.
  - intros (a & b & Ha & Hb & H1 & H2).
    apply in_map_iff in Ha as (ri & <- & Hi), Hb as (rj & <- & Hj).
    simpl in *. exists ri, rj. repeat split; try assumption. lia.
  - intros (ri & rj & Hi & Hj & Hsz & Hne).
    exists (- patch_size ri, ri), (- patch_size rj, rj).
    repeat split; try (apply in_map_iff; eauto); simpl; [lia | assumption].
Qed.

(** ** Patch selection *)

(** C1 fails on the code: the candidates are keyed by the negated line
    count and sorted in ascending order, so the first tuple is the one of
    the longest patch.  For three results with 40, 12 and 25 patch lines
    the result with 40 lines is returned, not the one with 12. *)
Theorem select_best_solution_three :
  map patch_size three_results = [40; 12; 25]
  /\ select_best_solution three_results = ret (Some (result_with_lines 40 3 3)).
Proof. split; vm_compute; reflexivity. Qed.

(** C10 as stated fails: two results with the same line count that are
    equal as mappings make two equal tuples, which [<] compares without
    touching the order of mappings; the first of them is returned. *)
Lemma select_best_twin_counterexample :
  ~ (forall results : list EvaluationResult,
       tied results ->
       exists msg, select_best_solution results = raise (TypeError msg)).
Proof.
  intros H. destruct (H twin_results) as [msg Hm].
  - exists 0%nat, 1%nat, (result_with_lines 12 3 3), (result_with_lines 12 3 3).
    repeat split; discriminate.
  - vm_compute in Hm. discriminate Hm.
Qed.

Lemma tied_unequal_tied results : tied_unequal results -> tied results.
Proof.
  intros (ri & rj & Hi & Hj & Hsz & Hne).
  apply list_elem_of_In, list_elem_of_lookup_1 in Hi as [i Hi].
  apply list_elem_of_In, list_elem_of_lookup_1 in Hj as [j Hj].
  exists i, j, ri, rj. repeat split; try assumption.
  intros ->. congruence.
Qed.

(** C10, amended: [select_best_solution] raises, and then a
    [TypeError], exactly when two results have the same patch line count
    and differ as mappings.  Results that tie but are equal mappings do
    not raise.  Without such a pair, and in particular when the line
    counts are pairwise distinct, a non-empty list yields a winner, which
    is a result with the largest line count. *)
Theorem select_best_solution_errors (results : list EvaluationResult) :
  ((exists msg, select_best_solution results = raise (TypeError msg))
   <-> tied_unequal results)
  /\ (forall e, select_best_solution results = raise e ->
                exists msg, e = TypeError msg)
  /\ (~ tied_unequal results -> results <> [] ->
      exists winner,
        select_best_solution results = ret (Some winner)
        /\ In winner results
        /\ forall r, In r results -> patch_size r <= patch_size winner)
  /\ (~ tied results -> ~ tied_unequal results).
Proof.
  assert (Hcases :
    (~ tied_unequal results
     /\ (results <> [] ->
         exists winner,
           select_best_solution results = ret (Some winner)
           /\ In winner results
           /\ forall r, In r results -> patch_size r <= patch_size winner))
    \/ (tied_unequal results
        /\ exists msg, select_best_solution results = raise (TypeError msg))).
  { unfold select_best_solution.
    destruct results as [|r0 results0].
    { left. split; [intros (? & ? & [] & _) | congruence]. }
    set (results := r0 :: results0) in *.
    change (map (fun res => (- patch_size res, res)) (r0 :: results0))
      with (map (fun res => (- patch_size res, res)) results).
    destruct (map (fun res => (- patch_size res, res)) results)
      as [|c0 cs] eqn:Ec; [discriminate|]. rewrite <- Ec. clear c0 cs Ec.
    destruct (sorted_candidates_run
                (map (fun res => (- patch_size res, res)) results))
      as [(Hfree & s' & -> & Hp & Hs)|(Hc & msg & ->)].
    - left. split.
      + intros Ht. apply candidates_conflict in Ht as (a & b & Ha & Hb & Hc).
        exact (Hfree a b Ha Hb Hc).
      + intros _. destruct s' as [|h s'].
        { apply Permutation_sym, Permutation_nil in Hp. discriminate. }
        assert (Hh : In h (map (fun res => (- patch_size res, res)) results)).
        { apply (Permutation_in _ (Permutation_sym Hp)). now left. }
        apply in_map_iff in Hh as (w & <- & Hw).
        exists w. split; [reflexivity|]. split; [exact Hw|].
        intros r Hr.
        assert (Hin : In (- patch_size r, r) ((- patch_size w, w) :: s')).
        { apply (Permutation_in _ Hp). apply in_map_iff. eauto. }
        apply StronglySorted_inv in Hs as [_ Hall].
        destruct Hin as [[= E _]|Hin]; [lia|].
        rewrite List.Forall_forall in Hall. specialize (Hall _ Hin).
        unfold key_le in Hall. simpl in Hall. lia.
    - right. split; [now apply candidates_conflict | eauto]. }
  split; [|split; [|split]].
  - split.
    + intros [msg Hm]. destruct Hcases as [[Hno Hw]|[Ht _]]; [|exact Ht].
      destruct results as [|r0 rs]; [discriminate Hm|].
      destruct Hw as (w & Hw & _); [discriminate|].
      rewrite Hw in Hm. discriminate Hm.
    + intros Ht. destruct Hcases as [[Hno _]|[_ Hm]]; [contradiction | exact Hm].
  - intros e He. destruct Hcases as [[_ Hw]|[_ [msg Hm]]].
    + destruct results as [|r0 rs]; [discriminate He|].
      destruct Hw as (w & Hw & _); [discriminate|].
      rewrite Hw in He. discriminate He.
    + rewrite Hm in He. injection He as <-. eauto.
  - intros Hno Hne. destruct Hcases as [[_ Hw]|[Ht _]]; [auto | contradiction].
  - intros Hno Ht. apply Hno. now apply tied_unequal_tied.
Qed.

(** The same result listed twice ties with itself and is returned. *)
Lemma select_best_solution_twin :
  exists winner,
    select_best_solution twin_results = ret (Some winner)
    /\ In winner twin_results
    /\ forall r, In r twin_results -> patch_size r <= patch_size winner.
Proof.
  apply (proj1 (proj2 (proj2 (select_best_solution_errors twin_results)))).
  - intros (ri & rj & Hi & Hj & _ & Hne). simpl in Hi, Hj.
    destruct Hi as [<-|[<-|[]]], Hj as [<-|[<-|[]]]; now apply Hne.
  - discriminate.
Defined.

(** * Further properties of the code *)

(** ** Function specifications of stage 3 *)

Lemma split_length sep s :
  length (Py.split sep s) = S (count_occ ascii_dec s sep).
Proof.
  induction s as [|c s IH]; simpl; [reflexivity|].
  destruct (Ascii.eqb_spec c sep) as [->|Hne].
  - destruct (ascii_dec sep sep); [|congruence]. simpl. now rewrite IH.
  - destruct (ascii_dec c sep); [congruence|].
    destruct (Py.split sep s); simpl in *; lia.
Qed.

Lemma join_split sep s : Py.join [sep] (Py.split sep s) = s.
Proof.
  induction s as [|c s IH]; simpl; [reflexivity|].
  destruct (Ascii.eqb_spec c sep) as [->|Hne].
  - pose proof (split_not_nil sep s) as Hn.
    destruct (Py.split sep s) as [|l ls]; [congruence|].
    change (Py.join [sep] ([] :: l :: ls)) with (sep :: Py.join [sep] (l :: ls)).
    now rewrite IH.
  - destruct (Py.split sep s) as [|l ls]; simpl in *; [congruence|].
    destruct ls; simpl in *; congruence.
Qed.

Lemma join_snoc sep parts p :
  parts <> [] -> Py.join sep (parts ++ [p]) = Py.join sep parts ++ sep ++ p.
Proof.
  induction parts as [|q parts IH]; [congruence|]. intros _.
  destruct parts as [|r parts]; [reflexivity|].
  change (Py.join sep ((q :: r :: parts) ++ [p]))
    with (q ++ sep ++ Py.join sep ((r :: parts) ++ [p])).
  rewrite IH by discriminate.
  change (Py.join sep (q :: r :: parts)) with (q ++ sep ++ Py.join sep (r :: parts)).
  now rewrite <- !app_assoc.
Qed.

(** Joining dot-free fields with a slash is joining them with a dot and
    turning the dots into slashes. *)
Lemma join_slash_dot parts :
  Forall (fun l => ~ In "."%char l) parts ->
  Py.join (lit "/") parts = map dot_to_slash (Py.join (lit ".") parts).
Proof.
  assert (Hfix : forall l, ~ In "."%char l -> map dot_to_slash l = l).
  { induction l as [|c l IH]; simpl; [reflexivity|]. intros H.
    unfold dot_to_slash at 1. destruct (Ascii.eqb_spec c "."); [tauto|].
    now rewrite IH by tauto. }
  induction 1 as [|p parts Hp _ IH]; [reflexivity|].
  destruct parts as [|q parts]; [simpl; now rewrite Hfix|].
  change (Py.join (lit "/") (p :: q :: parts))
    with (p ++ lit "/" ++ Py.join (lit "/") (q :: parts)).
  change (Py.join (lit ".") (p :: q :: parts))
    with (p ++ lit "." ++ Py.join (lit ".") (q :: parts)).
  rewrite IH, !map_app, (Hfix p Hp). reflexivity.
Qed.

Lemma parse_function_spec_cases (func_spec : str) :
  (~ In "."%char func_spec
   /\ exists msg, parse_function_spec func_spec = raise (ValueError msg))
  \/ (In "."%char func_spec
      /\ exists parsed, parse_function_spec func_spec = ret parsed).
Proof.
  unfold parse_function_spec. rewrite split_length.
  destruct (Nat.ltb_spec (S (count_occ ascii_dec func_spec "."%char)) 2) as [Hlt|Hge].
  - left. split; [|eauto]. apply (count_occ_not_In ascii_dec). lia.
  - right. split; [|eauto]. apply (count_occ_In ascii_dec). lia.
Qed.

(** X1: [parse_function_spec] raises exactly on a specification without
    a dot, and what it raises is a [ValueError]. *)
Theorem parse_function_spec_raises (func_spec : str) :
  ((exists e, parse_function_spec func_spec = raise e)
   <-> ~ In "."%char func_spec)
  /\ (forall e, parse_function_spec func_spec = raise e ->
                exists msg, e = ValueError msg).
Proof.
  destruct (parse_function_spec_cases func_spec)
    as [[Hno [msg Hm]]|[Hin [parsed Hp]]]; rewrite ?Hm, ?Hp.
  - split; [split; eauto|]. intros e [= <-]. eauto.
  - split; [|intros e [=]]. split; [intros [e [=]] | contradiction].
Qed.

(** X2: a specification that parses is cut at its last dot: the function
    name is what follows and holds no dot; the file path is what comes
    before, with its dots turned into slashes, and [.py]. *)
Theorem parse_function_spec_cut (func_spec file_path func_name : str) :
  parse_function_spec func_spec = ret (file_path, func_name) ->
  exists stem,
    func_spec = stem ++ lit "." ++ func_name
    /\ ~ In "."%char func_name
    /\ file_path = map dot_to_slash stem ++ lit ".py".
Proof.
  unfold parse_function_spec.
  pose proof (join_split "." func_spec) as Hjoin.
  pose proof (split_fields "." func_spec) as Hfields.
  destruct (Nat.ltb_spec (length (Py.split "." func_spec)) 2) as [|Hlen];
    [discriminate|].
  intros [= <- <-].
  destruct (exists_last (l := Py.split "." func_spec)) as (init & name & E).
  { intros E. rewrite E in Hlen. simpl in Hlen. lia. }
  rewrite E in *. rewrite removelast_last, last_last.
  assert (init <> []) as Hinit.
  { intros ->. simpl in Hlen. lia. }
  apply Forall_app in Hfields as [Hinit_f Hname].
  exists (Py.join (lit ".") init). split; [|split].
  - rewrite <- Hjoin at 1. now apply join_snoc.
  - now inversion Hname.
  - now rewrite join_slash_dot.
Qed.

(** The specification of the example response parses to its module file
    and function name. *)
Lemma parse_function_spec_example :
  parse_function_spec example_spec
  = ret (lit "sklearn/svm/base.py", lit "_sparse_fit")
  /\ exists stem,
       example_spec = stem ++ lit "." ++ lit "_sparse_fit"
       /\ ~ In "."%char (lit "_sparse_fit")
       /\ lit "sklearn/svm/base.py" = map dot_to_slash stem ++ lit ".py".
Proof.
  split; [reflexivity|].
  apply (parse_function_spec_cut example_spec). reflexivity.
Defined.

(** ** Dictionaries built by the stages *)

Lemma odict_set_map (v : str -> str) (acc : list str) (k : str) :
  odict_set k (v k) (map (fun x => (x, v x)) acc)
  = map (fun x => (x, v x)) (if decide (k ∈ acc) then acc else acc ++ [k]).
Proof.
  induction acc as [|a acc IH]; simpl.
  - destruct (decide (k ∈ [])) as [H|_]; [inversion H | reflexivity].
  - destruct (bool_decide_reflect (a = k)) as [->|Hne].
    + destruct (decide (k ∈ k :: acc)) as [_|H]; [reflexivity|].
      exfalso. apply H. constructor.
    + rewrite IH. destruct (decide (k ∈ acc)) as [Hin|Hout].
      * destruct (decide (k ∈ a :: acc)) as [_|H]; [reflexivity|].
        exfalso. apply H. now constructor.
      * destruct (decide (k ∈ a :: acc)) as [H|_]; [|reflexivity].
        inversion H; subst; congruence.
Qed.

Lemma fold_mentions (l acc : list str) :
  fold_left (fun acc k => if decide (k ∈ acc) then acc else acc ++ [k]) l acc
  = acc ++ filter (fun y => y ∉ acc) (first_mentions l).
Proof.
  revert acc; induction l as [|x l IH]; intros acc; simpl.
  - now rewrite app_nil_r.
  - rewrite IH. rewrite filter_cons. destruct (decide (x ∈ acc)) as [Hin|Hout].
    + destruct (decide (x ∉ acc)) as [H|_]; [contradiction|].
      f_equal. rewrite list_filter_filter. apply list_filter_iff.
      intros y. split; [|tauto]. intros Hy. split; [exact Hy|congruence].
    + destruct (decide (x ∉ acc)) as [_|H]; [|contradiction].
      rewrite <- app_assoc. simpl. do 2 f_equal.
      rewrite list_filter_filter. apply list_filter_iff.
      intros y. rewrite not_elem_of_app, not_elem_of_cons. split.
      * intros (H1 & H2 & _). tauto.
      * intros [H1 H2]. repeat split; try assumption. apply not_elem_of_nil.
Qed.

Lemma filter_all {X} (P : X -> Prop) `{!forall x, Decision (P x)} (l : list X) :
  (forall x, P x) -> filter P l = l.
Proof.
  intros Hall. induction l as [|x l IH]; [reflexivity|].
  rewrite filter_cons_True by apply Hall. now rewrite IH.
Qed.

(** A loop that stores [v k] under each key [k] it keeps builds the
    dictionary of the kept keys at their first mentions. *)
Lemma odict_fold (v : str -> str) (keep : str -> bool) (l : list str) :
  fold_left (fun d k => if keep k then odict_set k (v k) d else d) l []
  = map (fun k => (k, v k)) (first_mentions (List.filter keep l)).
Proof.
  assert (H : forall acc,
    fold_left (fun d k => if keep k then odict_set k (v k) d else d) l
      (map (fun k => (k, v k)) acc)
    = map (fun k => (k, v k))
        (fold_left (fun acc k => if decide (k ∈ acc) then acc else acc ++ [k])
           (List.filter keep l) acc)).
  { induction l as [|x l IH]; intros acc; simpl; [reflexivity|].
    destruct (keep x); simpl; [|apply IH].
    rewrite odict_set_map. apply IH. }
  specialize (H []). simpl map in H at 1. rewrite H, fold_mentions. simpl. f_equal.
  apply filter_all. intros y. apply not_elem_of_nil.
Qed.

Lemma first_mentions_skip (keep : str -> bool) (l1 l2 : list str) (x : str) :
  keep x = false ->
  List.filter keep (l1 ++ x :: l2) = List.filter keep (l1 ++ l2).
Proof.
  intros Hx. rewrite !List.filter_app. simpl. now rewrite Hx.
Qed.

(** ** Excerpts and stage 3 *)

Lemma join_empty_cons p ps : Py.join [] (p :: ps) = p ++ Py.join [] ps.
Proof. destruct ps; simpl; [now rewrite app_nil_r | reflexivity]. Qed.

Lemma get_code_with_lines_served repo sha path :
  get_code_with_lines repo sha path
  = match served_text repo sha path with
    | Some text => Py.join [] (imap number_line (Py.split Py.LF text))
    | None => []
    end.
Proof.
  unfold get_code_with_lines, served_text, try_except, bind.
  destruct (get_contents repo path (VStr sha)) as [e|[c|cs]]; try reflexivity.
  destruct (bool_decide (cf_type c = lit "file")); [|reflexivity].
  simpl. destruct (decoded_utf8 c); reflexivity.
Qed.

Lemma excerpt_starts_with_one text :
  exists rest,
    Py.join [] (imap number_line (Py.split Py.LF text)) = lit "1: " ++ rest.
Proof.
  pose proof (split_not_nil Py.LF text) as Hn.
  destruct (Py.split Py.LF text) as [|l ls]; [congruence|].
  simpl imap. rewrite join_empty_cons.
  exists (l ++ Py.join [] (imap (number_line ∘ S) ls)). reflexivity.
Qed.

Lemma excerpt_nil_iff repo sha path :
  get_code_with_lines repo sha path = [] <-> served_text repo sha path = None.
Proof.
  rewrite get_code_with_lines_served.
  destruct (served_text repo sha path) as [text|]; [|tauto].
  destruct (excerpt_starts_with_one text) as [rest ->]. split; discriminate.
Qed.



Lemma fold_left_ext {X Y} (f h : X -> Y -> X) l a :
  (forall a b, f a b = h a b) -> fold_left f l a = fold_left h l a.
Proof.
  intros E. revert a; induction l as [|b l IH]; intros a; simpl; [reflexivity|].
  now rewrite E, IH.
Qed.

Lemma compress_file_served repo sha d path :
  compress_file repo sha d path
  = if bool_decide (is_Some (served_text repo sha path))
    then odict_set path (outline_for repo sha path) d else d.
Proof.
  unfold compress_file, outline_for, served_text, try_except, bind.
  destruct (get_contents repo path (VStr sha)) as [e|[c|cs]]; try reflexivity.
  destruct (bool_decide (cf_type c = lit "file")); [|reflexivity].
  simpl. destruct (decoded_utf8 c); reflexivity.
Qed.

Lemma add_code_context_served repo sha d func_spec :
  add_code_context repo sha d func_spec
  = if negb (bool_decide (excerpt_for repo sha func_spec = []))
    then odict_set func_spec (excerpt_for repo sha func_spec) d else d.
Proof.
  unfold add_code_context, excerpt_for, try_except, bind.
  destruct (parse_function_spec func_spec) as [e|parsed]; reflexivity.
Qed.

(** X4: stage 2 fails only when the repository lookup fails, and then
    with the wrapped message.  Otherwise its prompt has one section for
    each file of [top_files] that is served, at the place of its first
    mention, holding the outline of that file; a path that is not served
    changes nothing in the prompt. *)
Theorem function_class_localization_sections (g : Github)
    (repo_owner repo_name : str) (top_files : list str)
    (issue_desc test_patch base_commit_sha : str)
    (github_token : option str) (n : Z) :
  function_class_localization g repo_owner repo_name top_files issue_desc
    test_patch base_commit_sha github_token n
  = match get_repo g (repo_owner ++ lit "/" ++ repo_name) with
    | inl e =>
        raise (Exception
          (lit "Error accessing GitHub repository: " ++ exn_message e))
    | inr repo =>
        ret (function_class_prompt n
               (map (fun path => (path, outline_for repo base_commit_sha path))
                  (first_mentions
                     (List.filter
                        (fun path =>
                           bool_decide
                             (is_Some (served_text repo base_commit_sha path)))
                        top_files)))
               issue_desc test_patch)
    end.
Proof.
  unfold function_class_localization.
  destruct (get_repo g _) as [e|repo]; [reflexivity|].
  do 2 f_equal.
  rewrite (fold_left_ext _ _ _ _ (compress_file_served repo base_commit_sha)).
  apply (odict_fold (outline_for repo base_commit_sha)).
Qed.

(** When a specification gets no section: it has no dot, or the file it
    names is not served. *)
Lemma excerpt_for_empty_iff repo sha func_spec :
  excerpt_for repo sha func_spec = []
  <-> (~ In "."%char func_spec
       \/ exists file_path func_name,
            parse_function_spec func_spec = ret (file_path, func_name)
            /\ served_text repo sha file_path = None).
Proof.
  unfold excerpt_for.
  destruct (parse_function_spec_cases func_spec)
    as [[Hno [msg Hm]]|[Hin [[file_path func_name] Hp]]]; rewrite ?Hm, ?Hp.
  - split; [auto | reflexivity].
  - simpl. rewrite excerpt_nil_iff. split.
    + intros H. right. eauto.
    + intros [Hno|(p & f & [= <- <-] & H)]; [contradiction | exact H].
Qed.

(** X5: stage 3 fails only when the repository lookup fails.  Otherwise
    its prompt has one section for each specification of
    [target_functions] that has a dot and whose file is served, at the
    place of its first mention, holding the numbered excerpt of the
    file; a specification without a dot or with a file that is not
    served is skipped. *)
Theorem line_level_localization_sections (g : Github)
    (repo_owner repo_name : str) (target_functions : list str)
    (issue_desc test_patch base_commit_sha : str)
    (github_token : option str) (context_window : Z) :
  line_level_localization g repo_owner repo_name target_functions issue_desc
    test_patch base_commit_sha github_token context_window
  = match get_repo g (repo_owner ++ lit "/" ++ repo_name) with
    | inl e =>
        raise (Exception
          (lit "Error accessing GitHub repository: " ++ exn_message e))
    | inr repo =>
        ret (line_level_prompt
               (map (fun spec => (spec, excerpt_for repo base_commit_sha spec))
                  (first_mentions
                     (List.filter
                        (fun spec =>
                           negb (bool_decide
                                   (excerpt_for repo base_commit_sha spec = [])))
                        target_functions)))
               issue_desc test_patch context_window)
    end
  /\ forall repo func_spec,
       excerpt_for repo base_commit_sha func_spec = []
       <-> (~ In "."%char func_spec
            \/ exists file_path func_name,
                 parse_function_spec func_spec = ret (file_path, func_name)
                 /\ served_text repo base_commit_sha file_path = None).
Proof.
  split; [|intros; apply excerpt_for_empty_iff].
  unfold line_level_localization.
  destruct (get_repo g _) as [e|repo]; [reflexivity|].
  do 2 f_equal.
  rewrite (fold_left_ext _ _ _ _ (add_code_context_served repo base_commit_sha)).
  apply (odict_fold (excerpt_for repo base_commit_sha)).
Qed.


(** ** Paths extracted from a response *)

Lemma extract_top_files_lines llm_response :
  extract_top_files llm_response
  = flat_map path_of_line (Py.split Py.LF llm_response).
Proof.
  unfold extract_top_files.
  assert (H : forall lines acc,
    fold_left
      (fun files line =>
         if Py.startswith (lit "- ") line then
           let file_path :=
             Py.strip (Py.strip_chars (lit "- ") (hd [] (Py.split "(" line))) in
           files ++ [file_path]
         else files) lines acc
    = acc ++ flat_map path_of_line lines).
  { induction lines as [|l lines IH]; intros acc; cbn [fold_left flat_map].
    - now rewrite app_nil_r.
    - rewrite IH. unfold path_of_line at 2.
      destruct (Py.startswith (lit "- ") l); cbn [app]; [|reflexivity].
      now rewrite <- app_assoc. }
  apply (H _ []).
Qed.

Lemma lstrip_suffix s : exists pre, s = pre ++ Py.lstrip s.
Proof.
  induction s as [|c s [pre IH]]; simpl; [now exists []|].
  destruct (Py.isspace c); [|now exists []].
  exists (c :: pre). simpl. now rewrite <- IH.
Qed.

Lemma lstrip_head s :
  from_option (fun c => negb (Py.isspace c)) true (head (Py.lstrip s)) = true.
Proof.
  induction s as [|c s IH]; simpl; [reflexivity|].
  destruct (Py.isspace c) eqn:E; [exact IH|]. simpl. now rewrite E.
Qed.

Lemma lstrip_fixed s :
  from_option (fun c => negb (Py.isspace c)) true (head s) = true ->
  Py.lstrip s = s.
Proof.
  destruct s as [|c s]; simpl; [reflexivity|].
  intros H. apply negb_true_iff in H. now rewrite H.
Qed.

Lemma head_rev {X} (l : list X) : head (rev l) = last l.
Proof.
  induction l as [|x l IH] using rev_ind; [reflexivity|].
  rewrite rev_app_distr, last_snoc. reflexivity.
Qed.

(** [strip] leaves no blank at either end. *)
Lemma strip_edges s :
  from_option (fun c => negb (Py.isspace c)) true (head (Py.strip s)) = true
  /\ from_option (fun c => negb (Py.isspace c)) true (last (Py.strip s)) = true.
Proof.
  unfold Py.strip, Py.rstrip. split.
  - destruct (lstrip_suffix (rev (Py.lstrip s))) as [pre E].
    pose proof (lstrip_head s) as Hh.
    apply (f_equal (@rev ascii)) in E.
    rewrite rev_involutive, rev_app_distr in E.
    destruct (rev (Py.lstrip (rev (Py.lstrip s)))) as [|c t]; [reflexivity|].
    rewrite E in Hh. exact Hh.
  - rewrite <- head_rev, rev_involutive. apply lstrip_head.
Qed.

Lemma strip_fixed s :
  from_option (fun c => negb (Py.isspace c)) true (head s) = true ->
  from_option (fun c => negb (Py.isspace c)) true (last s) = true ->
  Py.strip s = s.
Proof.
  intros Hh Hl. unfold Py.strip, Py.rstrip.
  rewrite (lstrip_fixed s Hh), lstrip_fixed; [apply rev_involutive|].
  now rewrite head_rev.
Qed.

Lemma lstrip_chars_incl chars s c :
  In c (Py.lstrip_chars chars s) -> In c s.
Proof.
  induction s as [|x s IH]; simpl; [tauto|].
  destruct (existsb _ chars); [auto | simpl; tauto].
Qed.

Lemma strip_chars_incl chars s c : In c (Py.strip_chars chars s) -> In c s.
Proof.
  unfold Py.strip_chars. intros H. apply in_rev in H.
  apply lstrip_chars_incl, in_rev in H. now apply lstrip_chars_incl in H.
Qed.

Lemma lstrip_chars_fixed chars s :
  from_option (fun c => negb (existsb (Ascii.eqb c) chars)) true (head s) = true ->
  Py.lstrip_chars chars s = s.
Proof.
  destruct s as [|c s]; simpl; [reflexivity|].
  intros H. apply negb_true_iff in H. now rewrite H.
Qed.

Lemma lstrip_chars_app chars pre s :
  Forall (fun c => existsb (Ascii.eqb c) chars = true) pre ->
  Py.lstrip_chars chars (pre ++ s) = Py.lstrip_chars chars s.
Proof.
  induction 1 as [|c pre Hc _ IH]; simpl; [reflexivity|]. now rewrite Hc.
Qed.

Lemma plain_edge_chars o :
  from_option plain_edge true o = true ->
  from_option (fun c => negb (existsb (Ascii.eqb c) (lit "- "))) true o = true
  /\ from_option (fun c => negb (Py.isspace c)) true o = true.
Proof.
  destruct o as [c|]; simpl; [|auto]. unfold plain_edge.
  rewrite !andb_true_iff. intros [[H1 H2] H3].
  apply negb_true_iff in H1, H2. rewrite H1, H2. auto.
Qed.

(** A bullet line gives its path back. *)
Lemma path_of_bullet path explanation :
  bullet_path path -> path_of_line (bullet (path, explanation)) = [path].
Proof.
  intros (_ & Hparen & Hhead & Hlast).
  apply plain_edge_chars in Hhead as [Hh1 Hh2], Hlast as [Hl1 Hl2].
  unfold path_of_line, bullet. simpl fst; simpl snd.
  change (Py.startswith (lit "- ") (lit "- " ++ path ++ lit " (" ++ explanation ++ lit ")"))
    with true. cbv iota.
  replace (lit "- " ++ path ++ lit " (" ++ explanation ++ lit ")")
    with ((lit "- " ++ path ++ lit " ") ++ "("%char :: explanation ++ lit ")")
    by (now rewrite <- !app_assoc).
  rewrite split_app.
  2:{ intros H. apply in_app_or in H as [H|H]; [simpl in H; intuition discriminate|].
      apply in_app_or in H as [H|H]; [tauto | simpl in H; intuition discriminate]. }
  simpl hd. f_equal.
  assert (Hsc : Py.strip_chars (lit "- ") (lit "- " ++ path ++ lit " ") = path).
  { unfold Py.strip_chars.
    rewrite (lstrip_chars_app (lit "- ") (lit "- ")) by (repeat constructor).
    destruct path as [|c path'] eqn:Ep; [reflexivity|]. rewrite <- Ep in *.
    assert (path <> []) as Hne by (rewrite Ep; discriminate).
    rewrite (lstrip_chars_fixed (lit "- ") (path ++ lit " ")).
    2:{ rewrite Ep. simpl. rewrite Ep in Hh1. exact Hh1. }
    rewrite rev_app_distr.
    rewrite (lstrip_chars_app (lit "- ") (rev (lit " "))) by (repeat constructor).
    rewrite lstrip_chars_fixed; [apply rev_involutive|].
    now rewrite head_rev. }
  change ("-"%char :: " "%char :: path ++ [" "%char])
    with (lit "- " ++ path ++ lit " ").
  rewrite Hsc. now apply strip_fixed.
Qed.

(** X6: the bullet format of the prompts round-trips through
    [extract_top_files]: a response made of lines
    [- <path> (<explanation>)] gives back the paths, in order, when
    each path holds no line feed and no opening parenthesis and has
    neither a dash nor a blank at either end, and no explanation holds a
    line feed. *)
Theorem extract_top_files_bullets (items : list (str * str)) :
  Forall (fun item => bullet_path item.1 /\ ~ In Py.LF item.2) items ->
  extract_top_files (Py.join [Py.LF] (map bullet items)) = map fst items.
Proof.
  intros Hitems. rewrite extract_top_files_lines.
  assert (Hlines : flat_map path_of_line (map bullet items) = map fst items).
  { induction Hitems as [|[p e] l [Hp _] _ IH]; [reflexivity|].
    cbn [map flat_map]. rewrite IH, path_of_bullet by assumption. reflexivity. }
  destruct items as [|item items]; [reflexivity|].
  rewrite split_join; [exact Hlines | discriminate |].
  - apply Forall_map. eapply Forall_impl; [exact Hitems|].
    intros [p e] [(Hlf & _) He]. unfold bullet. simpl. intros H.
    destruct H as [H|[H|H]]; [discriminate H | discriminate H|].
    apply in_app_or in H as [H|H]; [tauto|].
    simpl in H. destruct H as [H|[H|H]]; [discriminate H | discriminate H|].
    apply in_app_or in H as [H|H]; [tauto|].
    simpl in H. destruct H as [H|[]]. discriminate H.
Qed.

(** The two bullets of the example response come back as the two paths. *)
Lemma extract_top_files_example :
  extract_top_files (Py.join [Py.LF] (map bullet example_bullets))
  = [lit "sklearn/svm/tests/test_svm.py"; lit "sklearn/svm/base.py"].
Proof.
  apply (extract_top_files_bullets example_bullets).
  repeat constructor; simpl; intuition discriminate.
Defined.

(** X7: whatever the response, an extracted path holds no line feed and
    no opening parenthesis and has no blank at either end. *)
Theorem extract_top_files_clean (llm_response : str) :
  Forall
    (fun path =>
       ~ In Py.LF path /\ ~ In "("%char path
       /\ from_option (fun c => negb (Py.isspace c)) true (head path) = true
       /\ from_option (fun c => negb (Py.isspace c)) true (last path) = true)
    (extract_top_files llm_response).
Proof.
  rewrite extract_top_files_lines. apply List.Forall_forall. intros path Hin.
  apply in_flat_map in Hin as (line & Hline & Hpath).
  unfold path_of_line in Hpath.
  destruct (Py.startswith (lit "- ") line); [|destruct Hpath].
  destruct Hpath as [<-|[]].
  pose proof (split_fields Py.LF llm_response) as HLF.
  rewrite List.Forall_forall in HLF. specialize (HLF _ Hline).
  pose proof (split_fields "(" line) as Hparen.
  pose proof (join_split "(" line) as Hjoin.
  assert (Hhd : forall c, In c (hd [] (Py.split "(" line)) -> In c line).
  { intros c Hc. rewrite <- Hjoin.
    destruct (Py.split "(" line) as [|p ps]; [destruct Hc|].
    simpl in Hc. destruct ps; [exact Hc|].
    change (Py.join ["("%char] (p :: l :: ps))
      with (p ++ "("%char :: Py.join ["("%char] (l :: ps)).
    apply in_or_app. now left. }
  assert (Hsub : forall c,
            In c (Py.strip (Py.strip_chars (lit "- ") (hd [] (Py.split "(" line)))) ->
            In c (hd [] (Py.split "(" line))).
  { intros c Hc. now apply strip_incl, strip_chars_incl in Hc. }
  split; [|split].
  - intros H. apply Hsub, Hhd in H. contradiction.
  - intros H. apply Hsub in H.
    destruct (Py.split "(" line) as [|p ps]; [destruct H|].
    inversion Hparen; subst. simpl in H. contradiction.
  - apply strip_edges.
Qed.

(** ** The prompt that is sent *)

(** X8: whatever the prompt, what [get_llm_response] sends is a prefix
    of it whose token estimate [len // 4] is within the ceiling, and
    sending the result again would cut nothing more. *)
Theorem truncation_step_prefix (prompt : str) :
  (exists rest, prompt = truncation_step prompt ++ rest)
  /\ Z.of_nat (length (truncation_step prompt)) / 4 <= max_tokens
  /\ truncation_step (truncation_step prompt) = truncation_step prompt.
Proof.
  assert (Hkeep : forall p, Z.of_nat (length p) / 4 <= max_tokens ->
                            truncation_step p = p).
  { intros p Hp. unfold truncation_step.
    destruct (Z.gtb_spec (Z.of_nat (length p) / 4) max_tokens); [lia | reflexivity]. }
  destruct (Z_le_gt_dec (Z.of_nat (length prompt) / 4) max_tokens) as [Hle|Hgt].
  - rewrite (Hkeep prompt Hle). split; [exists []; now rewrite app_nil_r|].
    split; [exact Hle | now apply Hkeep].
  - destruct (truncation_step_cut prompt Hgt) as [Hbound _].
    assert (Hest : Z.of_nat (length (truncation_step prompt)) / 4 <= max_tokens).
    { unfold max_tokens in *.
      pose proof (Z.div_le_mono (Z.of_nat (length (truncation_step prompt)))
                    480000 4 ltac:(lia) ltac:(lia)) as Hd.
      change (480000 / 4) with 120000 in Hd. lia. }
    split; [|split; [exact Hest | now apply Hkeep]].
    unfold truncation_step.
    destruct (Z.gtb_spec (Z.of_nat (length prompt) / 4) max_tokens); [|lia].
    unfold Py.slice_to.
    destruct (negb _).
    + exists (drop (Z.to_nat (Py.rfind "." (take (Z.to_nat (max_tokens * 4)) prompt) + 1))
                (take (Z.to_nat (max_tokens * 4)) prompt)
              ++ drop (Z.to_nat (max_tokens * 4)) prompt).
      now rewrite app_assoc, !take_drop.
    + exists (drop (Z.to_nat (max_tokens * 4)) prompt). now rewrite take_drop.
Qed.

(** ** The issue description of the workflow *)

Lemma consumed_take_while cls s :
  Re.consumed s (drop_while cls s) = take_while cls s.
Proof.
  rewrite <- (take_drop_while cls s) at 1. apply consumed_app.
Qed.

(** The lazy [.*?] before [(?:\n|$)] runs to the end of the line. *)
Lemma lazy_to_end_of_line {A} s (f : str -> A) :
  Re.star_lazy Re.dot s (fun s3 =>
    Re.alt (Re.lit_ [Py.LF] s3) (Re.eos s3) (fun _ => Some (f s3)))
  = Some (f (drop_while Re.dot s)).
Proof.
  induction s as [|c s IH]; [reflexivity|].
  cbn [Re.star_lazy drop_while]. unfold Re.alt at 1, Re.eos at 1.
  cbn [Re.lit_]. unfold Re.dot at 1 3.
  destruct (Ascii.eqb_spec c Py.LF) as [->|Hne].
  - rewrite Ascii.eqb_refl. reflexivity.
  - rewrite (proj2 (Ascii.eqb_neq Py.LF c)) by congruence.
    rewrite bool_decide_eq_false_2 by discriminate.
    rewrite bool_decide_eq_false_2 by congruence.
    simpl. exact IH.
Qed.

Lemma comment_pattern_hash s1 :
  comment_pattern ("#"%char :: s1)
  = Some (take_while Re.dot (drop_while Py.isspace s1)).
Proof.
  unfold comment_pattern.
  change ("#"%char :: s1) with (lit "#" ++ s1). rewrite lit_app.
  rewrite star_total_eq.
  - rewrite lazy_to_end_of_line. now rewrite consumed_take_while.
  - intros s'. rewrite lazy_to_end_of_line. eauto.
Qed.

Lemma comment_pattern_other s :
  match s with
  | [] => True
  | c :: _ => c <> "#"%char
  end -> comment_pattern s = None.
Proof.
  destruct s as [|c s]; [reflexivity|]. intros Hne.
  unfold comment_pattern, lit. cbn [list_ascii_of_string Re.lit_].
  now rewrite (proj2 (Ascii.eqb_neq "#" c)) by congruence.
Qed.

Lemma search_comment_first pre s1 :
  ~ In "#"%char pre ->
  Re.search comment_pattern (pre ++ "#"%char :: s1)
  = Some (take_while Re.dot (drop_while Py.isspace s1)).
Proof.
  induction pre as [|c pre IH]; intros Hno.
  - cbn [app]. unfold Re.search. destruct s1; now rewrite comment_pattern_hash.
  - cbn [app Re.search]. rewrite comment_pattern_other by (simpl in Hno; tauto).
    apply IH. simpl in Hno. tauto.
Qed.

Lemma search_comment_none s :
  ~ In "#"%char s -> Re.search comment_pattern s = None.
Proof.
  induction s as [|c s IH]; intros Hno; [reflexivity|].
  cbn [Re.search]. rewrite comment_pattern_other by (simpl in Hno; tauto).
  apply IH. simpl in Hno. tauto.
Qed.

(** X9: the issue description the workflow uses.  A description given
    in the task record is used as it is.  Without one, and with a patch
    that holds a [#], it is the text that follows the first [#] and the
    blanks after it, line feeds among them, up to the next line feed;
    with a patch without [#] it is the first five lines of the patch. *)
Theorem issue_description_of_spec (task_data : gmap string str) :
  (forall description,
     task_data !! "issue_description"%string = Some description ->
     description <> [] ->
     issue_description_of task_data = description)
  /\ (forall patch,
        default [] (task_data !! "issue_description"%string) = [] ->
        task_data !! "model_patch"%string = Some patch ->
        (forall before after,
           patch = before ++ "#"%char :: after -> ~ In "#"%char before ->
           issue_description_of task_data
           = take_while Re.dot (drop_while Py.isspace after))
        /\ (~ In "#"%char patch ->
            issue_description_of task_data
            = Py.join [Py.LF] (take 5 (Py.split Py.LF patch)))).
Proof.
  unfold issue_description_of. split.
  - intros description -> Hne. simpl.
    now rewrite bool_decide_eq_false_2.
  - intros patch -> ->. simpl. split.
    + intros before after -> Hno. now rewrite search_comment_first.
    + intros Hno. now rewrite search_comment_none.
Qed.

(** A comment sign followed by an empty line: the description is taken
    from the line after it. *)
Lemma issue_description_of_commented :
  issue_description_of commented_task = lit "fix the bug".
Proof.
  apply (proj1 (proj2 (issue_description_of_spec commented_task)
                  (lit "diff #" ++ [Py.LF; Py.LF] ++ lit "  fix the bug"
                   ++ [Py.LF] ++ lit "more")
                  eq_refl eq_refl)
           (lit "diff ")
           ([Py.LF; Py.LF] ++ lit "  fix the bug" ++ [Py.LF] ++ lit "more")).
  - reflexivity.
  - simpl. intuition discriminate.
Defined.

(** ** The workflow of [process_task] *)

Lemma file_level_localization_empty_tree fuel g repo_owner repo_name
    issue_description test_patch github_token n :
  file_level_localization (S fuel) g repo_owner repo_name issue_description
    test_patch github_token n
  = Some
      match get_repo g (repo_owner ++ lit "/" ++ repo_name) with
      | inl e =>
          raise (Exception
            (lit "Error accessing GitHub repository: " ++ exn_message e))
      | inr _ => ret (file_level_prompt n [] issue_description test_patch)
      end.
Proof.
  unfold file_level_localization.
  destruct (get_repo g _) as [e|repo]; reflexivity.
Qed.

(** X10: [process_task] never returns a result.  It calls stage 2
    without the parameter [base_commit_sha], which has no default, so
    once the repository information is derived, the repository is found
    and the first response has come back, binding the arguments of that
    call raises [TypeError]; before that point it can only raise too. *)
Theorem process_task_never_returns {A} (rest : list str -> frame -> result A)
    (fuel : nat) (g : Github) (client : option OpenAI)
    (github_token : option str) (task_data : gmap string str) :
  process_task rest (S fuel) g client github_token task_data
  = Some
      (do repo_info <- derive_repo_info task_data;
       match
         get_repo g (default [] (repo_info !! "repo_owner"%string) ++ lit "/"
                     ++ default [] (repo_info !! "repo_name"%string))
       with
       | inl e =>
           raise (Exception
             (lit "Error accessing GitHub repository: " ++ exn_message e))
       | inr _ =>
           do file_response <-
             get_llm_response client
               (file_level_prompt 3 [] (issue_description_of task_data)
                  (default [] (task_data !! "model_patch"%string)))
               "gpt-4-turbo-preview";
           raise (TypeError
             "CodebaseAnalyzer.function_class_localization() missing 1 required positional argument: 'base_commit_sha'")
       end)
  /\ forall value,
       process_task rest (S fuel) g client github_token task_data
       <> Some (ret value).
Proof.
  assert (E : process_task rest (S fuel) g client github_token task_data
    = Some
      (do repo_info <- derive_repo_info task_data;
       match
         get_repo g (default [] (repo_info !! "repo_owner"%string) ++ lit "/"
                     ++ default [] (repo_info !! "repo_name"%string))
       with
       | inl e =>
           raise (Exception
             (lit "Error accessing GitHub repository: " ++ exn_message e))
       | inr _ =>
           do file_response <-
             get_llm_response client
               (file_level_prompt 3 [] (issue_description_of task_data)
                  (default [] (task_data !! "model_patch"%string)))
               "gpt-4-turbo-preview";
           raise (TypeError
             "CodebaseAnalyzer.function_class_localization() missing 1 required positional argument: 'base_commit_sha'")
       end)).
  { unfold process_task.
    destruct (derive_repo_info task_data) as [e|repo_info]; [reflexivity|].
    rewrite file_level_localization_empty_tree. cbn [bind].
    destruct (get_repo g _) as [e|repo]; [reflexivity|]. cbn [bind ret].
    destruct (get_llm_response client _ _) as [e|file_response]; reflexivity. }
  split; [exact E|].
  intros value. rewrite E. intros [= H]. revert H.
  destruct (derive_repo_info task_data) as [e|repo_info]; [discriminate|].
  cbn [bind]. destruct (get_repo g _) as [e|repo]; [discriminate|].
  destruct (get_llm_response client _ _) as [e|file_response]; discriminate.
Qed.

(** ** Loading a task *)

Lemma startswith_app p x y :
  Py.startswith p x = true -> Py.startswith p (x ++ y) = true.
Proof.
  revert x; induction p as [|a p IH]; intros x; [reflexivity|].
  destruct x as [|c x]; simpl; [discriminate|].
  rewrite !andb_true_iff. intros [-> H]. split; [reflexivity | now apply IH].
Qed.

Lemma endswith_app suffix a b :
  Py.endswith suffix b = true -> Py.endswith suffix (a ++ b) = true.
Proof.
  unfold Py.endswith. rewrite rev_app_distr. apply startswith_app.
Qed.

(** X11: an instance id, that is a name that does not end in [.json],
    loads the same task as the path of its passes file under
    [UTBoost_experiment/tasks]; and a task that is loaded is the record
    of the file or the first record of its array. *)
Theorem load_task_instance_id (read_json : str -> result tasks_json)
    (instance_id : str) :
  Py.endswith (lit ".json") instance_id = false ->
  load_task read_json instance_id
  = load_task read_json
      (lit "UTBoost_experiment/tasks/" ++ instance_id
       ++ lit "/passed_agent_passes.json")
  /\ forall task,
       load_task read_json instance_id = ret task ->
       exists tasks,
         read_json (lit "UTBoost_experiment/tasks/" ++ instance_id
                    ++ lit "/passed_agent_passes.json") = ret tasks
         /\ (tasks = TaskObject task
             \/ exists others, tasks = TaskList (task :: others)).
Proof.
  intros Hid.
  assert (Hpath : Py.endswith (lit ".json")
                    (lit "UTBoost_experiment/tasks/" ++ instance_id
                     ++ lit "/passed_agent_passes.json") = true).
  { rewrite app_assoc. now apply endswith_app. }
  unfold load_task. rewrite Hid, Hpath. simpl negb. cbv iota.
  split; [reflexivity|].
  intros task. destruct (read_json _) as [e|[[|t others]|t]]; simpl;
    try discriminate; intros [= <-]; eauto.
Qed.

(** The instance [sympy__sympy-20916] loads the first record of its
    passes file. *)
Lemma load_task_example :
  load_task one_task_store (lit "sympy__sympy-20916") = ret scenario_task.
Proof.
  rewrite (proj1 (load_task_instance_id one_task_store
                    (lit "sympy__sympy-20916") eq_refl)).
  reflexivity.
Defined.

(** ** The test case pulled from a context file *)

Lemma startswith_self p s : Py.startswith p (p ++ s) = true.
Proof.
  induction p as [|a p IH]; [reflexivity|]. simpl.
  now rewrite Ascii.eqb_refl, IH.
Qed.

Lemma python_block_pattern_starts s code :
  python_block_pattern s = Some code -> Py.startswith python_fence s = true.
Proof.
  unfold python_block_pattern. intros H.
  apply lit_inv in H as (s1 & -> & _). apply startswith_self.
Qed.

Lemma python_block_pattern_other s :
  match s with
  | [] => True
  | c :: _ => c <> "`"%char
  end -> python_block_pattern s = None.
Proof.
  destruct s as [|c s]; [reflexivity|]. intros Hne.
  unfold python_block_pattern, lit. cbn [list_ascii_of_string app Re.lit_].
  now rewrite (proj2 (Ascii.eqb_neq "`" c)) by congruence.
Qed.

(** The lazy [(.*?)] before the closing fence skips text without
    backticks. *)
Lemma lazy_to_closing_fence {A} code rest (f : str -> A) :
  ~ In "`"%char code ->
  Re.star_lazy Re.any (code ++ closing_fence ++ rest) (fun s2 =>
    Re.lit_ (lit "```") s2 (fun _ => Some (f s2)))
  = Some (f (closing_fence ++ rest)).
Proof.
  induction code as [|c code IH]; intros Hno.
  - cbn [app]. change (closing_fence ++ rest) with (lit "```" ++ rest).
    destruct (lit "```" ++ rest) as [|c s] eqn:E; [discriminate|].
    cbn [Re.star_lazy]. rewrite <- E, lit_app. reflexivity.
  - cbn [app Re.star_lazy]. unfold lit at 1. cbn [list_ascii_of_string Re.lit_].
    rewrite (proj2 (Ascii.eqb_neq "`" c)) by (simpl in Hno; intuition congruence).
    unfold Re.any at 1. apply IH. simpl in Hno. tauto.
Qed.

Lemma search_python_block before code after :
  ~ In "`"%char before -> ~ In "`"%char code ->
  Re.search python_block_pattern
    (before ++ python_fence ++ code ++ closing_fence ++ after)
  = Some code.
Proof.
  intros Hb Hc. induction before as [|c before IH].
  - cbn [app]. 
    assert (E : python_block_pattern
                  (python_fence ++ code ++ closing_fence ++ after) = Some code).
    { unfold python_block_pattern. fold python_fence. rewrite lit_app.
      rewrite lazy_to_closing_fence by assumption.
      f_equal. apply (consumed_app code). }
    unfold Re.search. destruct (python_fence ++ _); now rewrite E.
  - cbn [app Re.search].
    rewrite python_block_pattern_other by (simpl in Hb; intuition congruence).
    apply IH. simpl in Hb. tauto.
Qed.

(** X12: a test case that holds no opening fence of a Python block is
    pulled unchanged. *)
Theorem pull_test_case_unfenced (read_context : str -> result (gmap string str))
    (instance_id : str) (data : gmap string str) :
  read_context (lit "context_results/" ++ instance_id ++ lit ".json") = ret data ->
  (forall i,
     Py.startswith python_fence (drop i (default [] (data !! "test_case"%string)))
     = false) ->
  pull_test_case read_context instance_id
  = ret (default [] (data !! "test_case"%string)).
Proof.
  intros Hread Hno. unfold pull_test_case. rewrite Hread. cbn [bind ret].
  assert (E : Re.search python_block_pattern
                (default [] (data !! "test_case"%string)) = None).
  { apply search_None. intros i.
    destruct (python_block_pattern _) as [code|] eqn:E; [|reflexivity].
    apply python_block_pattern_starts in E. now rewrite Hno in E. }
  now rewrite E.
Qed.

(** A test case without any fence. *)
Lemma pull_test_case_plain :
  pull_test_case (context_with (lit "assert f(1) == 2")) (lit "task-1")
  = ret (lit "assert f(1) == 2").
Proof.
  refine (eq_trans
            (pull_test_case_unfenced (context_with (lit "assert f(1) == 2"))
               (lit "task-1") {[ "test_case"%string := lit "assert f(1) == 2" ]}
               _ _) _).
  - reflexivity.
  - intros i. do 17 (destruct i as [|i]; [reflexivity|]). reflexivity.
  - reflexivity.
Defined.

(** X13: from a test case that holds a Python block, the code of the
    block comes back with the blanks at its ends removed, whatever
    surrounds the block, when neither the text before the block nor the
    code holds a backtick. *)
Theorem pull_test_case_fenced (read_context : str -> result (gmap string str))
    (instance_id : str) (data : gmap string str) (before code after : str) :
  read_context (lit "context_results/" ++ instance_id ++ lit ".json") = ret data ->
  data !! "test_case"%string
  = Some (before ++ python_fence ++ code ++ closing_fence ++ after) ->
  ~ In "`"%char before -> ~ In "`"%char code ->
  pull_test_case read_context instance_id = ret (Py.strip code).
Proof.
  intros Hread Hcase Hb Hc. unfold pull_test_case.
  rewrite Hread. cbn [bind ret]. rewrite Hcase. cbn [default]. unfold id.
  now rewrite search_python_block.
Qed.

(** The block of the fenced response. *)
Lemma pull_test_case_block :
  pull_test_case (context_with fenced_response) (lit "task-1")
  = ret (lit "def test_f(): assert f(1) == 2").
Proof.
  apply (pull_test_case_fenced (context_with fenced_response) (lit "task-1")
           {[ "test_case"%string := fenced_response ]}
           (lit "Here is the test:" ++ [Py.LF])
           ([Py.LF] ++ lit "def test_f(): assert f(1) == 2" ++ [Py.LF])
           ([Py.LF] ++ lit "Done.")).
  - reflexivity.
  - reflexivity.
  - simpl. intuition discriminate.
  - simpl. intuition discriminate.
Defined.

(** ** The original pass rate *)

Lemma add_patches_union (passes : list agent_pass) (acc : gset str) :
  fold_left (fun unique patch => unique ∪ {[ model_patch patch ]}) passes acc
  = acc ∪ list_to_set (map model_patch passes).
Proof.
  revert acc; induction passes as [|p passes IH]; intros acc; simpl.
  - now rewrite (right_id_L ∅ (∪)).
  - now rewrite IH, (assoc_L (∪)).
Qed.

Lemma add_task_patches_union read_passes tasks_dir acc task :
  add_task_patches read_passes tasks_dir acc task
  = acc ∪ task_patches read_passes tasks_dir task.
Proof.
  unfold add_task_patches, task_patches.
  destruct (read_passes _); [apply add_patches_union|].
  now rewrite (right_id_L ∅ (∪)).
Qed.

Lemma unique_patches_union read_passes tasks_dir task_list acc :
  fold_left (add_task_patches read_passes tasks_dir) task_list acc
  = acc ∪ ⋃ (task_patches read_passes tasks_dir <$> task_list).
Proof.
  revert acc; induction task_list as [|t l IH]; intros acc; simpl.
  - now rewrite (right_id_L ∅ (∪)).
  - now rewrite IH, add_task_patches_union, (assoc_L (∪)).
Qed.

(** X14: the original pass rate counts a patch text once, however many
    agents or tasks it was stored for, and does not depend on the order
    of the task list: two stores that hold the same set of patch texts
    for every listed task give the same rate on any two orderings of the
    list. *)
Theorem original_pass_rate_sets
    (read_passes read_passes' : str -> option (list agent_pass))
    (tasks_dir : str) (task_list task_list' : list str) :
  Permutation task_list task_list' ->
  (forall task, In task task_list ->
     task_patches read_passes tasks_dir task
     = task_patches read_passes' tasks_dir task) ->
  calculate_original_pass_rate read_passes tasks_dir task_list
  = calculate_original_pass_rate read_passes' tasks_dir task_list'.
Proof.
  intros Hperm Hsets. unfold calculate_original_pass_rate.
  rewrite !unique_patches_union, (Permutation_length Hperm).
  replace (⋃ (task_patches read_passes tasks_dir <$> task_list))
    with (⋃ (task_patches read_passes' tasks_dir <$> task_list')); [reflexivity|].
  apply set_eq. intros x. rewrite !elem_of_union_list. split.
  - intros (X & HX & Hx). apply list_elem_of_fmap in HX as (t & -> & Ht).
    exists (task_patches read_passes tasks_dir t). split; [|].
    + apply list_elem_of_fmap. exists t. split; [reflexivity|].
      apply list_elem_of_In. apply list_elem_of_In in Ht.
      now apply (Permutation_in _ (Permutation_sym Hperm)).
    + rewrite Hsets; [exact Hx|]. apply list_elem_of_In in Ht.
      now apply (Permutation_in _ (Permutation_sym Hperm)).
  - intros (X & HX & Hx). apply list_elem_of_fmap in HX as (t & -> & Ht).
    exists (task_patches read_passes' tasks_dir t). split.
    + apply list_elem_of_fmap. exists t. split; [reflexivity|].
      apply list_elem_of_In. apply list_elem_of_In in Ht.
      now apply (Permutation_in _ Hperm).
    + rewrite <- Hsets; [exact Hx|]. now apply list_elem_of_In.
Qed.

(** A patch stored for two agents counts once, and the order of the
    tasks does not matter: both stores give 2 patches for 2 tasks, that
    is 5.0. *)
Lemma original_pass_rate_example :
  calculate_original_pass_rate store_with_repeats (lit "tasks")
    [lit "t1"; lit "t2"]
  = calculate_original_pass_rate store_without_repeats (lit "tasks")
      [lit "t2"; lit "t1"]
  /\ calculate_original_pass_rate store_without_repeats (lit "tasks")
       [lit "t2"; lit "t1"] = Some (RFloat 5%float).
Proof.
  split.
  - apply (original_pass_rate_sets store_with_repeats store_without_repeats
             (lit "tasks") [lit "t1"; lit "t2"] [lit "t2"; lit "t1"]).
    + apply perm_swap.
    + intros task [<-|[<-|[]]]; vm_compute; reflexivity.
  - vm_compute. reflexivity.
Defined.

(** ** Choosing a task *)







(** ** Storing the passes *)

Lemma memory_fs_lawful : lawful memory_fs.
Proof.
  split.
  - intros d [dirs files] s' [= <-]. apply bool_decide_eq_true. left.
    simpl. set_solver.
  - intros p v [dirs files] s' [= <-]. apply bool_decide_eq_true. right.
    simpl. rewrite lookup_insert_eq. eauto.
  - intros p v [dirs files] s' q [= <-] Hq. apply bool_decide_eq_true in Hq.
    apply bool_decide_eq_true. destruct Hq as [Hq|Hq]; [now left|right].
    simpl in *. destruct (decide (p = q)) as [->|Hne].
    + rewrite lookup_insert_eq. eauto.
    + now rewrite lookup_insert_ne.
  - intros p v [dirs files] s' [= <-]. simpl. now rewrite lookup_insert_eq.
Qed.

(** X16: on a file system where what is made or written exists and a
    written file reads back, [process_prediction] is idempotent: after a
    call that returned, the same call answers [False] and changes
    nothing.  A call answers [True] only for a resolved instance, and
    then the passes file holds the new entry once, at its end; for an
    instance that is not resolved nothing is touched. *)
Theorem process_prediction_idempotent {S} (fs : FileSystem S)
    (data : gmap string str) (instance_id model_name model_patch : str)
    (resolved_tasks : gset str) (task_dir passes_file : str)
    (s s' : S) (added : bool) :
  lawful fs ->
  process_prediction fs data instance_id model_name model_patch resolved_tasks
    task_dir passes_file s = ret (added, s') ->
  process_prediction fs data instance_id model_name model_patch resolved_tasks
    task_dir passes_file s' = ret (false, s')
  /\ (added = true ->
      instance_id ∈ resolved_tasks
      /\ exists passes,
           load_passes fs passes_file s'
           = ret (passes ++ [Build_agent_pass instance_id model_patch model_name])
           /\ Build_agent_pass instance_id model_patch model_name ∉ passes)
  /\ (instance_id ∉ resolved_tasks -> added = false /\ s' = s).
Proof.
  intros [Hmk Hex Hkeep Hload]. unfold process_prediction.
  destruct (bool_decide_reflect (instance_id ∈ resolved_tasks)) as [Hin|Hout].
  2:{ intros [= <- <-]. repeat split; try discriminate; tauto. }
  set (new_pass := Build_agent_pass instance_id model_patch model_name).
  assert (Hrest : forall s1,
    path_exists fs task_dir s1 = true ->
    (do passes <- (if path_exists fs passes_file s1
                   then load_passes fs passes_file s1 else ret []);
     if bool_decide (new_pass ∉ passes) then
       do s2 <- dump_passes fs passes_file (passes ++ [new_pass]) s1;
       ret (true, s2)
     else ret (false, s1)) = ret (added, s') ->
    path_exists fs task_dir s' = true
    /\ (do passes <- (if path_exists fs passes_file s'
                      then load_passes fs passes_file s' else ret []);
        if bool_decide (new_pass ∉ passes) then
          do s2 <- dump_passes fs passes_file (passes ++ [new_pass]) s';
          ret (true, s2)
        else ret (false, s')) = ret (false, s')
    /\ (added = true ->
        exists passes,
          load_passes fs passes_file s' = ret (passes ++ [new_pass])
          /\ new_pass ∉ passes)).
  { intros s1 Hdir. unfold bind, ret.
    destruct (if path_exists fs passes_file s1
              then load_passes fs passes_file s1 else inr [])
      as [e|passes] eqn:Hpasses; [discriminate|].
    destruct (bool_decide_reflect (new_pass ∉ passes)) as [Hnew|Hold].
    - destruct (dump_passes fs passes_file (passes ++ [new_pass]) s1)
        as [e|s2] eqn:Hdump; [discriminate|].
      intros [= <- <-]. split; [exact (Hkeep _ _ _ _ _ Hdump Hdir)|].
      rewrite (Hex _ _ _ _ Hdump), (Hload _ _ _ _ Hdump). split.
      + unfold ret. rewrite bool_decide_eq_false_2; [reflexivity|].
        intros Hn. apply Hn. apply elem_of_app. right. now apply list_elem_of_singleton.
      + intros _. eauto.
    - intros [= <- <-]. split; [exact Hdir|]. rewrite Hpasses. split.
      + now rewrite bool_decide_eq_false_2.
      + discriminate. }
  intros Hrun.
  assert (exists s1, path_exists fs task_dir s1 = true
                     /\ (do passes <- (if path_exists fs passes_file s1
                                       then load_passes fs passes_file s1 else ret []);
                         if bool_decide (new_pass ∉ passes) then
                           do s2 <- dump_passes fs passes_file (passes ++ [new_pass]) s1;
                           ret (true, s2)
                         else ret (false, s1)) = ret (added, s'))
    as (s1 & Hdir & Htail).
  { destruct (path_exists fs task_dir s) eqn:Hdir; cbn [negb] in Hrun.
    - exists s. split; [exact Hdir|exact Hrun].
    - destruct (makedirs fs task_dir s) as [e|s1] eqn:Hmake; [discriminate|].
      exists s1. split; [exact (Hmk _ _ _ Hmake)|exact Hrun]. }
  destruct (Hrest s1 Hdir Htail) as (Hdir' & Hagain & Hadded).
  rewrite Hdir'. cbn [negb]. repeat split.
  - exact Hagain.
  - exact Hin.
  - apply Hadded; assumption.
  - contradiction.
  - contradiction.
Qed.

(** A first call on the empty file system stores the pass, a second one
    finds it. *)
Lemma process_prediction_twice :
  process_prediction memory_fs ∅ (lit "t-1") (lit "agent") (lit "patch")
    {[ lit "t-1" ]} (lit "tasks/t-1") (lit "tasks/t-1/passed_agent_passes.json")
    ({[ lit "tasks/t-1" ]},
     {[ lit "tasks/t-1/passed_agent_passes.json" := [pass_of "t-1" "patch" "agent"] ]})
  = ret (false,
         ({[ lit "tasks/t-1" ]},
          {[ lit "tasks/t-1/passed_agent_passes.json"
             := [pass_of "t-1" "patch" "agent"] ]})).
Proof.
  refine (proj1 (process_prediction_idempotent memory_fs ∅ (lit "t-1")
                   (lit "agent") (lit "patch") {[ lit "t-1" ]} (lit "tasks/t-1")
                   (lit "tasks/t-1/passed_agent_passes.json")
                   empty_memory _ true memory_fs_lawful _)).
  vm_compute. reflexivity.
Defined.
